(** * Error-handling utilities of [src/main.ts]

    A shallow embedding of the module: [NormalizedError], the type guards
    [isError], [isNormalizedError] and [isPromise], [toNormalizedError],
    [noThrow], [logError] and [HttpError].

    The functions take values of type [unknown], so the embedding starts
    with the part of the JavaScript data model they can observe: values,
    a store of objects with own properties (data or accessor) and a
    prototype, abrupt completions, promise reactions, and the console.
    What belongs to the host engine and not to the language (the text of
    a captured stack trace, the decimal form of a number, what an object's
    own conversion methods and user functions do) is an [Engine]. *)

From Stdlib Require Import ZArith Ascii.
From Stdlib Require Import Floats.PrimFloat Floats.FloatOps Floats.SpecFloat.
From stdpp Require Import base option list strings pretty.

Local Open Scope string_scope.
Local Open Scope list_scope.

(** ** Values and objects *)

(** Locations of the store. *)
Abbreviation loc := nat (only parsing).

(** Function objects that need no entry in the store: the callback this
    module passes around, and the built-in methods found on prototypes. *)
Inductive native :=
  | N_toNormalizedError
  | N_Promise_then
  | N_Promise_catch
  | N_builtin (name : string).

Inductive value :=
  | VUndefined
  | VNull
  | VBool (b : bool)
  | VNumber (n : float)
  | VBigInt (z : Z)
  | VString (s : string)
  | VSymbol (id : nat) (description : option string)
  | VObject (l : loc)
  | VNative (f : native).

(** A completion: the value an evaluation produces, or the value it throws. *)
Inductive completion (A : Type) :=
  | Normal (a : A)
  | Throw (e : value).
Arguments Normal {A} a.
Arguments Throw {A} e.

(** An own property is a data property or an accessor. An accessor is
    given by what reading it does: the getter returns or throws. Getters
    that change the store or answer differently from one read to the next
    are not modelled. *)
Inductive property :=
  | Data (v : value)
  | Accessor (getter : completion value).

(** The prototypes that matter to the module. *)
Inductive proto :=
  | ObjectPrototype
  | FunctionPrototype
  | ErrorPrototype
  | TypeErrorPrototype
  | NormalizedErrorPrototype
  | HttpErrorPrototype
  | PromisePrototype.

#[global] Instance proto_eq_dec : EqDecision proto.
Proof. solve_decision. Defined.

(** [[PromiseFulfillReactions]] and [[PromiseRejectReactions]] of a pending
    promise hold one record per [then] call. *)
Record reaction := {
  r_promise : loc;
  r_onFulfilled : value;
  r_onRejected : value;
}.

Inductive settlement :=
  | Fulfilled (v : value)
  | Rejected (reason : value).

Inductive pstate :=
  | Pending (reactions : list reaction)
  | Settled (o : settlement).

Record object := {
  prototype : option proto;
  callable : bool;
  promise_state : option pstate;
  properties : list (string * property);
}.

(** One argument of [console.error] as [logError] builds it. *)
Record error_record := {
  rec_name : value;
  rec_message : value;
  rec_stack : value;
}.

Record log_record := {
  rec_timestamp : string;
  rec_context : value;
  rec_error : error_record;
  rec_extraInfo : value;
}.

(** The store, the queue of promise reaction jobs, what was written to
    the console, and what [new Date().toISOString()] reads. *)
Record state := {
  heap : list object;
  jobs : list (reaction * settlement);
  console : list log_record;
  clock : string;
}.

Definition with_heap (h : list object) (s : state) : state :=
  {| heap := h; jobs := jobs s; console := console s; clock := clock s |}.

Definition with_jobs (j : list (reaction * settlement)) (s : state) : state :=
  {| heap := heap s; jobs := j; console := console s; clock := clock s |}.

Definition with_console (c : list log_record) (s : state) : state :=
  {| heap := heap s; jobs := jobs s; console := c; clock := clock s |}.

(** ** Evaluation: state and abrupt completion *)

Definition M (A : Type) : Type := state -> completion A * state.

Definition ret {A} (a : A) : M A := fun s => (Normal a, s).

Definition bind {A B} (m : M A) (k : A -> M B) : M B :=
  fun s => match m s with
           | (Normal a, s') => k a s'
           | (Throw e, s') => (Throw e, s')
           end.

Definition throw {A} (e : value) : M A := fun s => (Throw e, s).

(** [try { m } catch (e) { handler e }] *)
Definition try_catch {A} (m : M A) (handler : value -> M A) : M A :=
  fun s => match m s with
           | (Normal a, s') => (Normal a, s')
           | (Throw e, s') => handler e s'
           end.

Definition gets {A} (f : state -> A) : M A := fun s => (Normal (f s), s).

Definition modify (f : state -> state) : M unit := fun s => (Normal tt, f s).

Declare Scope js_scope.
Delimit Scope js_scope with js.
Notation "'let*' x ':=' c1 'in' c2" := (bind c1 (fun x => c2))
  (at level 10, x name, c1 at level 100, c2 at level 200) : js_scope.
Notation "c1 ';;' c2" := (bind c1 (fun _ => c2))
  (at level 100, c2 at level 200, right associativity) : js_scope.
Local Open Scope js_scope.

(** [a && b] on booleans, the right operand evaluated only when needed. *)
Definition and_then (a b : M bool) : M bool :=
  let* x := a in if x then b else ret false.
Infix "&&&" := and_then (at level 40, left associativity) : js_scope.

(** ** Objects in the store *)

Definition empty_object : object :=
  {| prototype := Some ObjectPrototype; callable := false;
     promise_state := None; properties := [] |}.

(** The object at [l]. Every location a program holds is in the store;
    one that is not reads as an empty object. *)
Definition lookup_object (s : state) (l : loc) : object :=
  default empty_object (heap s !! l).

Definition alloc (o : object) : M loc :=
  fun s => (Normal (length (heap s)), with_heap (heap s ++ [o]) s).

Definition update_object (l : loc) (f : object -> object) : M unit :=
  modify (fun s => with_heap (alter f l (heap s)) s).

Fixpoint own_property (ps : list (string * property)) (k : string)
  : option property :=
  match ps with
  | [] => None
  | (k', p) :: ps' => if String.eqb k k' then Some p else own_property ps' k
  end.

Fixpoint set_own (ps : list (string * property)) (k : string) (p : property)
  : list (string * property) :=
  match ps with
  | [] => [(k, p)]
  | (k', p') :: ps' =>
      if String.eqb k k' then (k, p) :: ps' else (k', p') :: set_own ps' k p
  end.

(** The prototype chain of an object whose prototype is [p], nearest first. *)
Definition proto_chain (p : proto) : list proto :=
  match p with
  | ObjectPrototype => [ObjectPrototype]
  | FunctionPrototype => [FunctionPrototype; ObjectPrototype]
  | ErrorPrototype => [ErrorPrototype; ObjectPrototype]
  | TypeErrorPrototype => [TypeErrorPrototype; ErrorPrototype; ObjectPrototype]
  | NormalizedErrorPrototype =>
      [NormalizedErrorPrototype; ErrorPrototype; ObjectPrototype]
  | HttpErrorPrototype => [HttpErrorPrototype; ErrorPrototype; ObjectPrototype]
  | PromisePrototype => [PromisePrototype; ObjectPrototype]
  end.

Definition method (name : string) : option property :=
  Some (Data (VNative (N_builtin name))).

(** Own properties of the prototypes, as the realm creates them. *)
Definition proto_property (p : proto) (k : string) : option property :=
  match p with
  | ObjectPrototype =>
      if String.eqb k "toString" then method "Object.prototype.toString"
      else if String.eqb k "valueOf" then method "Object.prototype.valueOf"
      else if String.eqb k "hasOwnProperty"
      then method "Object.prototype.hasOwnProperty"
      else if String.eqb k "constructor" then method "Object"
      else None
  | FunctionPrototype =>
      if String.eqb k "call" then method "Function.prototype.call"
      else if String.eqb k "apply" then method "Function.prototype.apply"
      else if String.eqb k "bind" then method "Function.prototype.bind"
      else if String.eqb k "toString" then method "Function.prototype.toString"
      else if String.eqb k "constructor" then method "Function"
      else None
  | ErrorPrototype =>
      if String.eqb k "name" then Some (Data (VString "Error"))
      else if String.eqb k "message" then Some (Data (VString ""))
      else if String.eqb k "toString" then method "Error.prototype.toString"
      else if String.eqb k "constructor" then method "Error"
      else None
  | TypeErrorPrototype =>
      if String.eqb k "name" then Some (Data (VString "TypeError"))
      else if String.eqb k "message" then Some (Data (VString ""))
      else if String.eqb k "constructor" then method "TypeError"
      else None
  | NormalizedErrorPrototype =>
      if String.eqb k "constructor" then method "NormalizedError" else None
  | HttpErrorPrototype =>
      if String.eqb k "constructor" then method "HttpError" else None
  | PromisePrototype =>
      if String.eqb k "then" then Some (Data (VNative N_Promise_then))
      else if String.eqb k "catch" then Some (Data (VNative N_Promise_catch))
      else if String.eqb k "finally" then method "Promise.prototype.finally"
      else if String.eqb k "constructor" then method "Promise"
      else None
  end.

Fixpoint chain_property (ps : list proto) (k : string) : option property :=
  match ps with
  | [] => None
  | p :: ps' =>
      match proto_property p k with
      | Some x => Some x
      | None => chain_property ps' k
      end
  end.

Definition inherited_property (p : option proto) (k : string)
  : option property :=
  match p with
  | None => None
  | Some q => chain_property (proto_chain q) k
  end.

(** The property [k] of an object, own or inherited. *)
Definition find_property (o : object) (k : string) : option property :=
  match own_property (properties o) k with
  | Some p => Some p
  | None => inherited_property (prototype o) k
  end.

Definition read_property (p : option property) : completion value :=
  match p with
  | None => Normal VUndefined
  | Some (Data v) => Normal v
  | Some (Accessor g) => g
  end.

(** ** Operators *)

Definition typeof (s : state) (v : value) : string :=
  match v with
  | VUndefined => "undefined"
  | VNull => "object"
  | VBool _ => "boolean"
  | VNumber _ => "number"
  | VBigInt _ => "bigint"
  | VString _ => "string"
  | VSymbol _ _ => "symbol"
  | VObject l => if callable (lookup_object s l) then "function" else "object"
  | VNative _ => "function"
  end.

(** [!!v] *)
Definition ToBoolean (v : value) : bool :=
  match v with
  | VUndefined | VNull => false
  | VBool b => b
  | VNumber n => negb (PrimFloat.eqb n 0 || negb (PrimFloat.eqb n n))
  | VBigInt z => negb (Z.eqb z 0)
  | VString s => negb (String.eqb s "")
  | VSymbol _ _ | VObject _ | VNative _ => true
  end.

Definition is_nullish (v : value) : bool :=
  match v with
  | VUndefined | VNull => true
  | _ => false
  end.

(** [a ?? b] *)
Definition nullish_coalesce (a : value) (b : M value) : M value :=
  if is_nullish a then b else ret a.

Definition is_undefined (v : value) : bool :=
  match v with
  | VUndefined => true
  | _ => false
  end.

(** A parameter with a default value: the default is used for [undefined]. *)
Definition default_parameter (a : value) (d : M value) : M value :=
  if is_undefined a then d else ret a.

Definition typeof_is (t : string) (v : value) : M bool :=
  gets (fun s => String.eqb (typeof s v) t).

(** ** The host engine *)

Class Engine := {
  (** Number::toString(x, 10) *)
  Number_toString : float -> string;
  (** The trace a new error object with this prototype and message
      captures, when the engine records one. *)
  capture_stack : proto -> string -> option string;
  (** ToString of an object: its own [Symbol.toPrimitive], [toString]
      and [valueOf]. The result comes with the objects the conversion
      created; it changes no object that exists. *)
  object_ToString : state -> value -> completion string * list object;
  (** [JSON.stringify] of an object: its properties, [toJSON] and the
      check for cycles. It creates objects and changes none, too. *)
  SerializeJSONObject :
    state -> value -> completion (option string) * list object;
  (** [[Call]] of a function this module does not define, and of a
      built-in other than [then] and [catch]. *)
  run_function : value -> value -> list value -> M value;
  (** The promise resolve function applied to a thenable. *)
  adopt_thenable : loc -> value -> value -> M unit;
}.

(** An evaluation that reads the state and creates objects. *)
Definition creating {A} (f : state -> completion A * list object) : M A :=
  fun s => let (c, new) := f s in (c, with_heap (heap s ++ new) s).

Section Language.
Context {E : Engine}.

Definition new_error_object (p : proto) (message : option string) : object :=
  {| prototype := Some p; callable := false; promise_state := None;
     properties :=
       match message with
       | Some m => [("message", Data (VString m))]
       | None => []
       end ++
       match capture_stack p (default "" message) with
       | Some t => [("stack", Data (VString t))]
       | None => []
       end |}.

(** [throw new TypeError(message)], as the engine does on a type error. *)
Definition throw_TypeError {A} (message : string) : M A :=
  let* l := alloc (new_error_object TypeErrorPrototype (Some message)) in
  throw (VObject l).

Definition object_of (s : state) (v : value) : option object :=
  match v with
  | VObject l => Some (lookup_object s l)
  | VNative _ =>
      Some {| prototype := Some FunctionPrototype; callable := true;
              promise_state := None; properties := [] |}
  | _ => None
  end.

(** [k in v] *)
Definition HasProperty (k : string) (v : value) : M bool :=
  let* o := gets (fun s => object_of s v) in
  match o with
  | Some o => ret (bool_decide (is_Some (find_property o k)))
  | None =>
      throw_TypeError "Cannot use 'in' operator to search for a key in a primitive"
  end.

(** [v.k]. The wrapper prototypes of primitive values carry none of the
    names the module reads. *)
Definition Get (v : value) (k : string) : M value :=
  let* o := gets (fun s => object_of s v) in
  match o with
  | Some o => fun s => (read_property (find_property o k), s)
  | None =>
      if is_nullish v
      then throw_TypeError "Cannot read properties of undefined or null"
      else ret VUndefined
  end.

(** [typeof v.k === t] *)
Definition typeof_member_is (t : string) (v : value) (k : string) : M bool :=
  let* x := Get v k in typeof_is t x.

(** [this.k = v] on an object under construction. *)
Definition assign (this : loc) (k : string) (v : value) : M unit :=
  update_object this (fun o =>
    {| prototype := prototype o; callable := callable o;
       promise_state := promise_state o;
       properties := set_own (properties o) k (Data v) |}).

Definition setPrototypeOf (this : loc) (p : proto) : M unit :=
  update_object this (fun o =>
    {| prototype := Some p; callable := callable o;
       promise_state := promise_state o; properties := properties o |}).

(** The abstract operation ToString. *)
Definition ToString (v : value) : M string :=
  match v with
  | VUndefined => ret "undefined"
  | VNull => ret "null"
  | VBool b => ret (if b then "true" else "false")
  | VNumber n => ret (Number_toString n)
  | VBigInt z => ret (pretty z)
  | VString s => ret s
  | VSymbol _ _ => throw_TypeError "Cannot convert a Symbol value to a string"
  | VObject _ | VNative _ => creating (fun s => object_ToString s v)
  end.

(** [String(v)] *)
Definition String_ (v : value) : M string :=
  match v with
  | VSymbol _ d => ret ("Symbol(" +:+ default "" d +:+ ")")
  | _ => ToString v
  end.

Definition is_finite (n : float) : bool :=
  PrimFloat.ltb (PrimFloat.abs n) PrimFloat.infinity.

Definition hex_digit (n : N) : ascii :=
  match n with
  | 0%N => "0" | 1%N => "1" | 2%N => "2" | 3%N => "3" | 4%N => "4"
  | 5%N => "5" | 6%N => "6" | 7%N => "7" | 8%N => "8" | 9%N => "9"
  | 10%N => "a" | 11%N => "b" | 12%N => "c" | 13%N => "d" | 14%N => "e"
  | _ => "f"
  end%char.

Definition backslash : string := String (ascii_of_N 92) "".
Definition double_quote : string := String (ascii_of_N 34) "".

Definition quote_char (c : ascii) : string :=
  let n := N_of_ascii c in
  if N.eqb n 34 then backslash +:+ double_quote
  else if N.eqb n 92 then backslash +:+ backslash
  else if N.eqb n 8 then backslash +:+ "b"
  else if N.eqb n 9 then backslash +:+ "t"
  else if N.eqb n 10 then backslash +:+ "n"
  else if N.eqb n 12 then backslash +:+ "f"
  else if N.eqb n 13 then backslash +:+ "r"
  else if N.ltb n 32
  then backslash +:+ "u00" +:+
       String (hex_digit (N.div n 16)) (String (hex_digit (N.modulo n 16)) "")
  else String c "".

Fixpoint quote_chars (s : string) : string :=
  match s with
  | EmptyString => ""
  | String c s' => quote_char c +:+ quote_chars s'
  end.

Definition QuoteJSONString (s : string) : string :=
  double_quote +:+ quote_chars s +:+ double_quote.

(** [JSON.stringify(v)]; [None] is the result [undefined]. *)
Definition JSON_stringify (v : value) : M (option string) :=
  match v with
  | VUndefined | VSymbol _ _ => ret None
  | VNull => ret (Some "null")
  | VBool b => ret (Some (if b then "true" else "false"))
  | VNumber n => ret (Some (if is_finite n then Number_toString n else "null"))
  | VBigInt _ => throw_TypeError "Do not know how to serialize a BigInt"
  | VString s => ret (Some (QuoteJSONString s))
  | VObject _ | VNative _ => creating (fun s => SerializeJSONObject s v)
  end.

(** A substitution [${x}] of a template literal, for [x] a string or
    [undefined]. *)
Definition substitution (x : option string) : string := default "undefined" x.

(** [super(message)] of a class extending [Error] whose instances have
    prototype [p]: the [Error] constructor run on a new object. *)
Definition Error_construct (p : proto) (message : value) : M loc :=
  let* m := (if is_undefined message then ret None
             else let* t := ToString message in ret (Some t)) in
  alloc (new_error_object p m).

(** [new Error(message)] *)
Definition new_Error (message : value) : M value :=
  let* l := Error_construct ErrorPrototype message in ret (VObject l).

(** [v instanceof Error] *)
Definition instanceof_Error (v : value) : M bool :=
  gets (fun s =>
    match v with
    | VObject l =>
        match prototype (lookup_object s l) with
        | Some p => bool_decide (ErrorPrototype ∈ proto_chain p)
        | None => false
        end
    | _ => false
    end).

End Language.

(** ** The module *)

Section Functions.
Context {E : Engine}.

(** [class NormalizedError extends Error]: [new NormalizedError(error,
    originalValue)], an omitted [originalValue] being [undefined]. *)
Definition NormalizedError_construct (error originalValue : value) : M value :=
  let* m := Get error "message" in
  let* this := Error_construct NormalizedErrorPrototype m in
  (* the declared fields: stack = "" and originalValue *)
  assign this "stack" (VString "");;
  assign this "originalValue" VUndefined;;
  let* st := Get error "stack" in
  let* st' := nullish_coalesce st (Get (VObject this) "message") in
  assign this "stack" st';;
  let* ov := nullish_coalesce originalValue (ret error) in
  assign this "originalValue" ov;;
  setPrototypeOf this NormalizedErrorPrototype;;
  ret (VObject this).

Definition isError (v : value) : M bool :=
  ret (ToBoolean v) &&&
  typeof_is "object" v &&&
  HasProperty "message" v &&&
  typeof_member_is "string" v "message" &&&
  HasProperty "stack" v &&&
  typeof_member_is "string" v "stack".

(** [v.stack !== undefined] *)
Definition stack_is_defined (v : value) : M bool :=
  let* st := Get v "stack" in ret (negb (is_undefined st)).

Definition isNormalizedError (v : value) : M bool :=
  isError v &&& HasProperty "originalValue" v &&& stack_is_defined v.

(** [typeof value === "object" ? JSON.stringify(value) : String(value)],
    as the template literal substitutes it. *)
Definition thrown_text (v : value) : M string :=
  let* o := typeof_is "object" v in
  if o then let* j := JSON_stringify v in ret (substitution j)
  else String_ v.

Definition toNormalizedError (v : value) : M value :=
  let* e := isError v in
  if e then NormalizedError_construct v VUndefined
  else
    try_catch
      (let* text := thrown_text v in
       let* err := new_Error (VString ("Unexpected value thrown: " +:+ text)) in
       NormalizedError_construct err v)
      (fun _ =>
       let* err :=
         new_Error (VString "Unexpected value thrown: non-stringifiable object") in
       NormalizedError_construct err v).

Definition isPromise (result : value) : M bool :=
  ret (ToBoolean result) &&&
  typeof_is "object" result &&&
  HasProperty "then" result &&&
  typeof_member_is "function" result "then" &&&
  HasProperty "catch" result &&&
  typeof_member_is "function" result "catch".

(** *** Promises, as far as [noThrow] reaches into them *)

Definition set_promise_state (l : loc) (ps : pstate) : M unit :=
  update_object l (fun o =>
    {| prototype := prototype o; callable := callable o;
       promise_state := Some ps; properties := properties o |}).

Definition enqueue_jobs (js : list (reaction * settlement)) : M unit :=
  modify (fun s => with_jobs (jobs s ++ js) s).

Definition promise_slot (s : state) (v : value) : option (loc * pstate) :=
  match v with
  | VObject l =>
      match promise_state (lookup_object s l) with
      | Some ps => Some (l, ps)
      | None => None
      end
  | _ => None
  end.

Definition new_promise : object :=
  {| prototype := Some PromisePrototype; callable := false;
     promise_state := Some (Pending []); properties := [] |}.

(** [Promise.prototype.then]: a new promise, and a reaction that settles
    it, kept by a pending receiver and queued as a job for a settled one. *)
Definition Promise_then (this onFulfilled onRejected : value) : M value :=
  let* slot := gets (fun s => promise_slot s this) in
  match slot with
  | Some (p, ps) =>
      let* q := alloc new_promise in
      let r := {| r_promise := q; r_onFulfilled := onFulfilled;
                  r_onRejected := onRejected |} in
      match ps with
      | Pending rs => set_promise_state p (Pending (rs ++ [r]))
      | Settled o => enqueue_jobs [(r, o)]
      end;;
      ret (VObject q)
  | None => throw_TypeError "Promise.prototype.then called on incompatible receiver"
  end.

Definition argument (args : list value) (i : nat) : value :=
  default VUndefined (args !! i).

(** [[Call]] of [f], for every [f] but [Promise.prototype.catch]. *)
Definition Call_function (f this : value) (args : list value) : M value :=
  match f with
  | VNative N_toNormalizedError => toNormalizedError (argument args 0)
  | VNative N_Promise_then =>
      Promise_then this (argument args 0) (argument args 1)
  | _ =>
      let* c := typeof_is "function" f in
      if c then run_function f this args
      else throw_TypeError "not a function"
  end.

(** [[Call]]. [Promise.prototype.catch] is [this.then(undefined,
    onRejected)]; should that [then] be [Promise.prototype.catch] again,
    the recursion has no end and its outcome is the engine's. *)
Definition Call (f this : value) (args : list value) : M value :=
  match f with
  | VNative N_Promise_catch =>
      let* t := Get this "then" in
      Call_function t this [VUndefined; argument args 0]
  | _ => Call_function f this args
  end.

(** [v.k(args)] *)
Definition Invoke (v : value) (k : string) (args : list value) : M value :=
  let* f := Get v k in Call f v args.

(** [action] is the evaluation of the call [action()]. *)
Definition noThrow (action : M value) : M value :=
  try_catch
    (let* result := action in
     let* p := isPromise result in
     if p then Invoke result "catch" [VNative N_toNormalizedError]
     else ret result)
    (fun error => toNormalizedError error).

(** The completion of [m], reified. *)
Definition attempt {A} (m : M A) : M (completion A) :=
  fun s => let (c, s') := m s in (Normal c, s').

(** FulfillPromise and RejectPromise: a pending promise is settled and
    its reactions become jobs. *)
Definition settle_promise (p : loc) (o : settlement) : M unit :=
  let* ps := gets (fun s => promise_state (lookup_object s p)) in
  match ps with
  | Some (Pending rs) =>
      set_promise_state p (Settled o);;
      enqueue_jobs (map (fun r => (r, o)) rs)
  | _ => ret tt
  end.

Definition is_object_at (l : loc) (v : value) : bool :=
  match v with
  | VObject l' => Nat.eqb l' l
  | _ => false
  end.

(** The resolve function of promise [p]. *)
Definition resolve_promise (p : loc) (resolution : value) : M unit :=
  let* o := gets (fun s => object_of s resolution) in
  match o with
  | None => settle_promise p (Fulfilled resolution)
  | Some _ =>
      if is_object_at p resolution
      then
        let* l := alloc (new_error_object TypeErrorPrototype
                           (Some "Chaining cycle detected for promise")) in
        settle_promise p (Rejected (VObject l))
      else
        let* t := attempt (Get resolution "then") in
        match t with
        | Throw e => settle_promise p (Rejected e)
        | Normal f =>
            let* c := typeof_is "function" f in
            if c then adopt_thenable p resolution f
            else settle_promise p (Fulfilled resolution)
        end
  end.

(** A promise reaction job. *)
Definition run_job (j : reaction * settlement) : M unit :=
  let (r, o) := j in
  let handler := match o with
                 | Fulfilled _ => r_onFulfilled r
                 | Rejected _ => r_onRejected r
                 end in
  let* c := typeof_is "function" handler in
  if c then
    let* x := attempt (Call handler VUndefined
                         [match o with Fulfilled v | Rejected v => v end]) in
    match x with
    | Normal v => resolve_promise (r_promise r) v
    | Throw e => settle_promise (r_promise r) (Rejected e)
    end
  else
    match o with
    | Fulfilled v => resolve_promise (r_promise r) v
    | Rejected e => settle_promise (r_promise r) (Rejected e)
    end.

(** The engine runs the queued jobs, first in first out. *)
Fixpoint run_jobs (fuel : nat) : M unit :=
  match fuel with
  | 0 => ret tt
  | S n =>
      let* js := gets jobs in
      match js with
      | [] => ret tt
      | j :: rest =>
          modify (with_jobs rest);;
          run_job j;;
          run_jobs n
      end
  end.

(** *** Logging *)

Definition console_error (r : log_record) : M unit :=
  modify (fun s => with_console (console s ++ [r]) s).

Definition logError (error context extraInfo : value) : M unit :=
  let* context :=
    default_parameter context (ret (VString "General context")) in
  let* extraInfo :=
    default_parameter extraInfo
      (let* l := alloc empty_object in ret (VObject l)) in
  let* i := instanceof_Error error in
  let* errorObject :=
    (if i then ret error
     else let* t := String_ error in new_Error (VString t)) in
  let* timestamp := gets clock in
  let* n := Get errorObject "name" in
  let* name := nullish_coalesce n (ret (VString "No name available")) in
  let* m := Get errorObject "message" in
  let* message := nullish_coalesce m (ret (VString "No message available")) in
  let* st := Get errorObject "stack" in
  let* stack :=
    nullish_coalesce st (ret (VString "No stack trace available")) in
  console_error
    {| rec_timestamp := timestamp;
       rec_context := context;
       rec_error := {| rec_name := name; rec_message := message;
                       rec_stack := stack |};
       rec_extraInfo := extraInfo |}.

(** [class HttpError extends Error] *)
Definition HttpError_construct (status message : value) : M value :=
  let* this := Error_construct HttpErrorPrototype message in
  assign this "status" status;;
  ret (VObject this).

End Functions.

(** ** An engine to run the module on

    It captures a one-frame trace, prints the integers a [number] holds
    exactly the way JavaScript does, serializes plain objects, and knows
    one user function, [function () {}]. Numbers with a fraction or from
    1e21 on are beyond it and print as a question mark. *)

Module Example.

Definition newline : string := String (ascii_of_N 10) "".

Definition Number_toString (n : float) : string :=
  match Prim2SF n with
  | S754_zero _ => "0"
  | S754_infinity false => "Infinity"
  | S754_infinity true => "-Infinity"
  | S754_nan => "NaN"
  | S754_finite sg m e =>
      let z := (if 0 <=? e then Z.pos m * 2 ^ e else Z.pos m / 2 ^ (- e))%Z in
      let exact := (if 0 <=? e then true else Z.pos m mod 2 ^ (- e) =? 0)%Z in
      if exact && (z <? 10 ^ 21)%Z
      then (if sg then "-" else "") +:+ pretty z
      else "?"
  end.

Definition error_name (p : proto) : string :=
  match chain_property (proto_chain p) "name" with
  | Some (Data (VString n)) => n
  | _ => "Error"
  end.

Definition capture_stack (p : proto) (message : string) : option string :=
  Some (error_name p +:+ ": " +:+ message +:+ newline +:+ "    at <anonymous>").

Definition type_error {A} (message : string) (s : state)
  : completion A * list object :=
  (Throw (VObject (length (heap s))),
   [{| prototype := Some TypeErrorPrototype; callable := false;
       promise_state := None;
       properties :=
         [("message", Data (VString message));
          ("stack", Data (VString ("TypeError: " +:+ message)))] |}]).

Definition text_of (c : completion value) (d : string) : string :=
  match c with
  | Normal (VString t) => t
  | _ => d
  end.

Definition object_ToString (s : state) (v : value)
  : completion string * list object :=
  let o := default empty_object (object_of s v) in
  match find_property o "toString" with
  | Some (Accessor (Throw e)) => (Throw e, [])
  | Some (Data (VNative (N_builtin b))) =>
      if String.eqb b "Object.prototype.toString"
      then (Normal "[object Object]", [])
      else if String.eqb b "Error.prototype.toString"
      then
        let n := text_of (read_property (find_property o "name")) "Error" in
        let m := text_of (read_property (find_property o "message")) "" in
        (Normal (if String.eqb m "" then n
                 else if String.eqb n "" then m
                 else n +:+ ": " +:+ m), [])
      else (Normal "function () { [native code] }", [])
  | Some (Data (VNative _)) => (Normal "function () { [native code] }", [])
  | Some (Data (VObject f)) =>
      if String.eqb (typeof s (VObject f)) "function"
      then (Normal "undefined", [])
      else type_error "Cannot convert object to primitive value" s
  | _ => type_error "Cannot convert object to primitive value" s
  end.

Inductive json :=
  | Text (t : option string)
  | Cyclic
  | BigIntValue
  | Thrown (e : value).

Definition braces (members : list string) : string :=
  "{" +:+ String.concat "," members +:+ "}".

Fixpoint serialize (fuel : nat) (s : state) (stack : list loc) (v : value)
  : json :=
  match v with
  | VUndefined | VSymbol _ _ | VNative _ => Text None
  | VNull => Text (Some "null")
  | VBool b => Text (Some (if b then "true" else "false"))
  | VNumber n => Text (Some (if is_finite n then Number_toString n else "null"))
  | VBigInt _ => BigIntValue
  | VString t => Text (Some (QuoteJSONString t))
  | VObject l =>
      let o := lookup_object s l in
      match read_property (find_property o "toJSON") with
      | Throw e => Thrown e
      | Normal f =>
          (* a callable [toJSON] is called, and returns [undefined] *)
          if String.eqb (typeof s f) "function" then Text None
          else if callable o then Text None
          else if bool_decide (l ∈ stack) then Cyclic
          else
            match fuel with
            | 0 => Cyclic
            | S n =>
                let fix members (ps : list (string * property)) : json + list string :=
                  match ps with
                  | [] => inr []
                  | (k, p) :: ps' =>
                      match read_property (Some p) with
                      | Throw e => inl (Thrown e)
                      | Normal x =>
                          match serialize n s (l :: stack) x with
                          | Text None => members ps'
                          | Text (Some t) =>
                              match members ps' with
                              | inr ms =>
                                  inr ((QuoteJSONString k +:+ ":" +:+ t) :: ms)
                              | inl err => inl err
                              end
                          | err => inl err
                          end
                      end
                  end in
                match members (properties o) with
                | inr ms => Text (Some (braces ms))
                | inl err => err
                end
            end
      end
  end.

Definition SerializeJSONObject (s : state) (v : value)
  : completion (option string) * list object :=
  match serialize (S (length (heap s))) s [] v with
  | Text t => (Normal t, [])
  | Thrown e => (Throw e, [])
  | Cyclic => type_error "Converting circular structure to JSON" s
  | BigIntValue => type_error "Do not know how to serialize a BigInt" s
  end.

(** The one user function, [function () {}]. *)
Definition run_function (f this : value) (args : list value) : M value :=
  ret VUndefined.

(** Its [then] being [function () {}], a thenable never settles the
    promise that adopts it. *)
Definition adopt_thenable (p : loc) (thenable then_ : value) : M unit :=
  ret tt.

#[global] Instance engine : Engine :=
  Build_Engine Number_toString capture_stack object_ToString
    SerializeJSONObject run_function adopt_thenable.

Definition initial : state :=
  {| heap := []; jobs := []; console := [];
     clock := "2024-01-01T00:00:00.000Z" |}.

End Example.

(** * Specification

    What the statements below are written with. *)

Section Specification.
Context {E : Engine}.

(** Reading [v.k] in state [s] gives [x] and changes nothing. *)
Definition reads (s : state) (v : value) (k : string) (x : value) : Prop :=
  Get v k s = (Normal x, s).

(** [s'] is [s] with more objects: every object of [s] is as it was. *)
Definition extends (s s' : state) : Prop :=
  exists new, s' = with_heap (heap s ++ new) s.

(** The spec's words: the value possesses a field [k] of type [t]. *)
Definition has_field_of_type (s : state) (v : value) (k t : string) : Prop :=
  exists o x,
    object_of s v = Some o /\
    is_Some (find_property o k) /\
    read_property (find_property o k) = Normal x /\
    typeof s x = t.

(** The spec's words: the value is non-null, is a composite (object-like)
    value, and possesses both a [message] field of text type and a
    [stack] field of text type. *)
Definition error_like (s : state) (v : value) : Prop :=
  v <> VNull /\ typeof s v = "object" /\
  has_field_of_type s v "message" "string" /\
  has_field_of_type s v "stack" "string".

(** The spec's words: error-like, and the value additionally possesses an
    [originalValue] field, and its [stack] field is not [undefined]. *)
Definition normalized_error_like (s : state) (v : value) : Prop :=
  error_like s v /\
  (exists o, object_of s v = Some o /\
             is_Some (find_property o "originalValue")) /\
  (exists x, reads s v "stack" x /\ x <> VUndefined).

(** The spec's words: the value is non-null, is a composite value, and
    possesses both a callable [then] member and a callable [catch]
    member. *)
Definition promise_like (s : state) (v : value) : Prop :=
  v <> VNull /\ typeof s v = "object" /\
  has_field_of_type s v "then" "function" /\
  has_field_of_type s v "catch" "function".

(** The shape [isError] and [isPromise] share: two members, each of a
    given type, on a non-null object. *)
Definition guard (t1 k1 t2 k2 : string) (v : value) : M bool :=
  ret (ToBoolean v) &&& typeof_is "object" v &&&
  HasProperty k1 v &&& typeof_member_is t1 v k1 &&&
  HasProperty k2 v &&& typeof_member_is t2 v k2.

Definition member_test (s : state) (o : object) (k t : string)
  : completion bool :=
  if bool_decide (is_Some (find_property o k)) then
    match read_property (find_property o k) with
    | Normal x => Normal (String.eqb (typeof s x) t)
    | Throw e => Throw e
    end
  else Normal false.

Definition guard_result (t1 k1 t2 k2 : string) (s : state) (v : value)
  : completion bool :=
  match v with
  | VObject l =>
      let o := lookup_object s l in
      if callable o then Normal false
      else
        match member_test s o k1 t1 with
        | Normal true => member_test s o k2 t2
        | c => c
        end
  | _ => Normal false
  end.

(** A [NormalizedError] as its constructor leaves it. *)
Definition normalized_error_object (m : string) (st ov : value) : object :=
  {| prototype := Some NormalizedErrorPrototype; callable := false;
     promise_state := None;
     properties := [("message", Data (VString m)); ("stack", Data st);
                    ("originalValue", Data ov)] |}.

(** [new NormalizedError(new Error(m), v)] *)
Definition wrap (m : string) (v : value) : M value :=
  let* err := new_Error (VString m) in NormalizedError_construct err v.


(** The reaction [noThrow] registers for the promise [q] it returns:
    [result.catch(toNormalizedError)]. *)
Definition noThrow_reaction (q : loc) : reaction :=
  {| r_promise := q; r_onFulfilled := VUndefined;
     r_onRejected := VNative N_toNormalizedError |}.



(** A promise in the store, pending, with reactions [rs]. *)
Definition pending_promise (s : state) (q : loc) (rs : list reaction) : Prop :=
  exists o, heap s !! q = Some o /\ promise_state o = Some (Pending rs).

Definition settled_with (s : state) (q : loc) (o : settlement) : Prop :=
  promise_state (lookup_object s q) = Some (Settled o).

(** The state in which the body of [logError] starts: an omitted
    [extraInfo] has been given a new empty object. *)
Definition after_defaults (extraInfo : value) (s : state) : state :=
  if is_undefined extraInfo then with_heap (heap s ++ [empty_object]) s else s.

Definition context_or_default (context : value) : value :=
  if is_undefined context then VString "General context" else context.

Definition extraInfo_or_default (extraInfo : value) (s : state) : value :=
  if is_undefined extraInfo then VObject (length (heap s)) else extraInfo.

(** [x ?? fallback] *)
Definition or_fallback (x : value) (fallback : string) : value :=
  if is_nullish x then VString fallback else x.

(** The record [logError] writes for an error object with these fields. *)
Definition logged (context extraInfo : value) (s : state) (n m st : value)
  : log_record :=
  {| rec_timestamp := clock s;
     rec_context := context_or_default context;
     rec_error :=
       {| rec_name := or_fallback n "No name available";
          rec_message := or_fallback m "No message available";
          rec_stack := or_fallback st "No stack trace available" |};
     rec_extraInfo := extraInfo_or_default extraInfo s |}.

(** [logError] once its parameters have their values. *)
Definition logError_body (error context extraInfo : value) : M unit :=
  let* i := instanceof_Error error in
  let* errorObject :=
    (if i then ret error
     else let* t := String_ error in new_Error (VString t)) in
  let* timestamp := gets clock in
  let* n := Get errorObject "name" in
  let* name := nullish_coalesce n (ret (VString "No name available")) in
  let* m := Get errorObject "message" in
  let* message := nullish_coalesce m (ret (VString "No message available")) in
  let* st := Get errorObject "stack" in
  let* stack :=
    nullish_coalesce st (ret (VString "No stack trace available")) in
  console_error
    {| rec_timestamp := timestamp;
       rec_context := context;
       rec_error := {| rec_name := name; rec_message := message;
                       rec_stack := stack |};
       rec_extraInfo := extraInfo |}.

(** ** For the further properties *)

(** Reading [v.k] in [s] runs a getter, and the getter throws [e]. *)
Definition getter_throws (s : state) (v : value) (k : string) (e : value)
  : Prop :=
  exists l, v = VObject l /\
    find_property (lookup_object s l) k = Some (Accessor (Throw e)).

(** A value a program can hold in [s]: an object it holds is in the
    store. *)
Definition in_store (s : state) (v : value) : Prop :=
  match v with
  | VObject l => l < length (heap s)
  | _ => True
  end.

(** [String(v)] for a primitive [v]. *)
Definition primitive_text (v : value) : option string :=
  match v with
  | VUndefined => Some "undefined"
  | VNull => Some "null"
  | VBool b => Some (if b then "true" else "false")
  | VNumber n => Some (Number_toString n)
  | VBigInt z => Some (pretty z)
  | VString t => Some t
  | VSymbol _ d => Some ("Symbol(" +:+ default "" d +:+ ")")
  | VObject _ | VNative _ => None
  end.


(** An [HttpError] as its constructor leaves it. *)
Definition http_error_object (m : string) (status : value) : object :=
  {| prototype := Some HttpErrorPrototype; callable := false;
     promise_state := None;
     properties :=
       [("message", Data (VString m))] ++
       match capture_stack HttpErrorPrototype m with
       | Some t => [("stack", Data (VString t))]
       | None => []
       end ++
       [("status", Data status)] |}.

(** [() => { throw new HttpError(status, m) }], called. *)
Definition throw_HttpError (status : value) (m : string) : M value :=
  let* e := HttpError_construct status (VString m) in throw e.


(** A [NormalizedError] made from a value without a [message]: it has no
    [message] of its own. *)
Definition messageless_error_object (st ov : value) : object :=
  {| prototype := Some NormalizedErrorPrototype; callable := false;
     promise_state := None;
     properties := [("stack", Data st); ("originalValue", Data ov)] |}.

End Specification.

(** ** Sample values *)

Module Sample.
Import Example.

Definition plain (ps : list (string * property)) : object :=
  {| prototype := Some ObjectPrototype; callable := false;
     promise_state := None; properties := ps |}.

(** [{ message: "boom", stack: "" }] *)
Definition empty_stack : object :=
  plain [("message", Data (VString "boom")); ("stack", Data (VString ""))].

(** [{ message: "boom" }] *)
Definition no_stack : object := plain [("message", Data (VString "boom"))].

(** [const o = {}; o.self = o] at location 2 *)
Definition cyclic : object := plain [("self", Data (VObject 2))].

(** [{ get message() { throw "gotcha" } }] *)
Definition trap : object :=
  plain [("message", Accessor (Throw (VString "gotcha")))].

(** [function () {}] *)
Definition noop : object :=
  {| prototype := Some FunctionPrototype; callable := true;
     promise_state := None; properties := [] |}.

(** [{ then() {}, catch() {} }], its members the function at location 4 *)
Definition thenable : object :=
  plain [("then", Data (VObject 4)); ("catch", Data (VObject 4))].

(** [const e = new Error("x"); e.name = null; e.message = undefined] *)
Definition nameless : object :=
  {| prototype := Some ErrorPrototype; callable := false;
     promise_state := None;
     properties := [("message", Data VUndefined);
                    ("stack", Data (VString "Error: x"));
                    ("name", Data VNull)] |}.

(** The promise [(async () => { throw "boom" })()] returns. *)
Definition rejected : object :=
  {| prototype := Some PromisePrototype; callable := false;
     promise_state := Some (Settled (Rejected (VString "boom")));
     properties := [] |}.

(** The promise [(async () => 7)()] returns. *)
Definition fulfilled : object :=
  {| prototype := Some PromisePrototype; callable := false;
     promise_state := Some (Settled (Fulfilled (VNumber 7)));
     properties := [] |}.

(** [new Promise(() => {})] *)
Definition pending : object :=
  {| prototype := Some PromisePrototype; callable := false;
     promise_state := Some (Pending []); properties := [] |}.

(** [new Error("x")] *)
Definition error_x : object :=
  {| prototype := Some ErrorPrototype; callable := false;
     promise_state := None;
     properties := [("message", Data (VString "x"));
                    ("stack", Data (VString "Error: x"))] |}.

(** [{ a: 1 }] *)
Definition extra : object := plain [("a", Data (VNumber 1))].

Definition store : state :=
  with_heap
    [empty_stack; no_stack; cyclic; trap; noop; thenable; nameless;
     rejected; fulfilled; pending; error_x; extra]
    initial.


(** [{ get then() { throw "gotcha" } }] *)
Definition then_trap : object :=
  plain [("then", Accessor (Throw (VString "gotcha")))].

(** The sample store with one more object, at location 12. *)
Definition store_with (o : object) : state :=
  with_heap (heap store ++ [o]) store.

End Sample.

(** * Properties *)

Section Lemmas.
Context {E : Engine}.

(** ** The store *)

Lemma with_heap_heap (s : state) : with_heap (heap s) s = s.
Proof. by destruct s. Qed.

Lemma lookup_object_old (new : list object) (s : state) (l : loc) :
  l < length (heap s) ->
  lookup_object (with_heap (heap s ++ new) s) l = lookup_object s l.
Proof.
  intros Hl. unfold lookup_object; simpl. by rewrite lookup_app_l.
Qed.

Lemma lookup_object_new (h : list object) (s : state) (o : object) :
  lookup_object (with_heap (h ++ [o]) s) (length h) = o.
Proof.
  unfold lookup_object; simpl. by rewrite list_lookup_middle.
Qed.

Lemma update_object_new (h : list object) (s : state) (o : object) f :
  update_object (length h) f (with_heap (h ++ [o]) s)
  = (Normal tt, with_heap (h ++ [f o]) s).
Proof.
  unfold update_object, modify, with_heap; simpl.
  replace (length h) with (length h + 0) by lia.
  by rewrite alter_app_r.
Qed.

Lemma extends_refl (s : state) : extends s s.
Proof. exists []. by rewrite app_nil_r, with_heap_heap. Qed.

Lemma extends_lookup (s s' : state) (l : loc) :
  extends s s' -> l < length (heap s) ->
  lookup_object s' l = lookup_object s l.
Proof. intros [new ->] Hl. by apply lookup_object_old. Qed.

Lemma creating_extends {A} (f : state -> completion A * list object)
    (s s' : state) (c : completion A) :
  creating f s = (c, s') -> extends s s'.
Proof.
  unfold creating. destruct (f s) as [c' new]. intros [= _ <-]. by exists new.
Qed.

Lemma throw_TypeError_extends {A} (message : string) (s s' : state)
    (c : completion A) :
  throw_TypeError message s = (c, s') -> extends s s'.
Proof. intros [= _ <-]. by eexists. Qed.

(** ** Reading properties *)

Lemma Get_object (l : loc) (k : string) (s : state) :
  Get (VObject l) k s
  = (read_property (find_property (lookup_object s l) k), s).
Proof. reflexivity. Qed.

Lemma HasProperty_object (l : loc) (k : string) (s : state) :
  HasProperty k (VObject l) s
  = (Normal (bool_decide (is_Some (find_property (lookup_object s l) k))), s).
Proof. reflexivity. Qed.

Lemma typeof_string (s : state) (x : value) :
  typeof s x = "string" <-> exists t, x = VString t.
Proof.
  split; [|by intros [t ->]].
  destruct x; simpl; try discriminate; [by eexists|].
  by destruct (callable _).
Qed.

Lemma inherited_no_string (p : proto) (k t : string) :
  p = ObjectPrototype \/ p = FunctionPrototype ->
  read_property (inherited_property (Some p) k) <> Normal (VString t).
Proof.
  intros [-> | ->]; simpl; unfold method;
    repeat (case_match; simplify_eq/=; try done).
Qed.

(** A value whose property reads as a string is an object of the store. *)
Lemma Get_string_in_store (v : value) (k : string) (s s' : state) (t : string) :
  Get v k s = (Normal (VString t), s') ->
  exists l, v = VObject l /\ l < length (heap s) /\ s' = s.
Proof.
  destruct v; unfold Get, bind, gets, ret; simpl; try discriminate.
  - intros H. inversion H; subst. exists l. split; [done|]. split; [|done].
    apply lookup_lt_is_Some. unfold lookup_object in *.
    destruct (heap s' !! l) eqn:Hl; [eauto|]. simpl in *.
    by apply (inherited_no_string ObjectPrototype) in H1; [|left].
  - intros H. inversion H; subst.
    by apply (inherited_no_string FunctionPrototype) in H1; [|right].
Qed.

(** ** The type guards *)

Lemma guard_eval (t1 k1 t2 k2 : string) (v : value) (s : state) :
  guard t1 k1 t2 k2 v s = (guard_result t1 k1 t2 k2 s v, s).
Proof.
  destruct v; try reflexivity;
    try (unfold guard, and_then, bind, ret, typeof_is, gets; simpl;
         repeat case_match; simplify_eq; done).
  unfold guard, guard_result, member_test, and_then, typeof_is,
    typeof_member_is; simpl.
  unfold Get, HasProperty, bind, gets, ret, object_of; simpl.
  destruct (callable (lookup_object s l)); simpl; [done|].
  destruct (bool_decide (is_Some (find_property (lookup_object s l) k1)));
    simpl; [|done].
  destruct (read_property (find_property (lookup_object s l) k1)) as [x|e];
    simpl; [|done].
  destruct (String.eqb (typeof s x) t1); simpl; [|done].
  destruct (bool_decide (is_Some (find_property (lookup_object s l) k2)));
    simpl; [|done].
  by destruct (read_property (find_property (lookup_object s l) k2)) as [y|e].
Qed.

Lemma isError_eval (v : value) (s : state) :
  isError v s = (guard_result "string" "message" "string" "stack" s v, s).
Proof. apply guard_eval. Qed.

Lemma isPromise_eval (v : value) (s : state) :
  isPromise v s = (guard_result "function" "then" "function" "catch" s v, s).
Proof. apply guard_eval. Qed.

Lemma member_test_true (s : state) (o : object) (k t : string) :
  member_test s o k t = Normal true <->
  is_Some (find_property o k) /\
  exists x, read_property (find_property o k) = Normal x /\ typeof s x = t.
Proof.
  unfold member_test. case_bool_decide as Hk.
  - destruct (read_property (find_property o k)) as [x|e].
    + split.
      * intros [= Ht%String.eqb_eq]. eauto.
      * intros (_ & y & [= <-] & Ht). by rewrite (proj2 (String.eqb_eq _ _) Ht).
    + split; [done|]. by intros (_ & y & ? & _).
  - split; [done|]. by intros [? _].
Qed.

Lemma guard_result_true (t1 k1 t2 k2 : string) (s : state) (v : value) :
  guard_result t1 k1 t2 k2 s v = Normal true <->
  v <> VNull /\ typeof s v = "object" /\
  has_field_of_type s v k1 t1 /\ has_field_of_type s v k2 t2.
Proof.
  unfold has_field_of_type. split.
  - destruct v; simpl; try discriminate.
    destruct (callable (lookup_object s l)) eqn:Hc; [discriminate|].
    destruct (member_test s (lookup_object s l) k1 t1) as [[]|] eqn:H1;
      try discriminate.
    intros H2. apply member_test_true in H1 as (? & x & ? & ?).
    apply member_test_true in H2 as (? & y & ? & ?).
    repeat split; [done | | ]; eexists _, _; eauto.
  - intros (Hn & Ht & (o1 & x & Ho1 & Hk1 & Hx & Htx)
                      & (o2 & y & Ho2 & Hk2 & Hy & Hty)).
    destruct v; simpl in *; try done.
    destruct (callable (lookup_object s l)); [done|].
    simplify_eq.
    rewrite (proj2 (member_test_true s _ k1 _)) by eauto.
    apply member_test_true; eauto.
Qed.

Lemma NormalizedError_construct_spec (error ov : value) (s : state)
    (m : string) (st : value) :
  reads s error "message" (VString m) ->
  reads s error "stack" st ->
  NormalizedError_construct error ov s
  = (Normal (VObject (length (heap s))),
     with_heap
       (heap s ++
        [normalized_error_object m
           (if is_nullish st then VString m else st)
           (if is_nullish ov then error else ov)]) s).
Proof.
  unfold reads. intros Hm Hst.
  destruct (Get_string_in_store _ _ _ _ _ Hm) as (l & -> & Hl & _).
  unfold NormalizedError_construct.
  unfold bind at 1. rewrite Hm.
  unfold bind at 1. unfold Error_construct. simpl.
  rewrite Get_object in Hm, Hst. inversion Hm as [Hm']. inversion Hst as [Hst'].
  unfold assign, setPrototypeOf.
  do 2 (unfold bind at 1; rewrite update_object_new).
  unfold bind at 1. rewrite Get_object, lookup_object_old, Hst' by done.
  unfold bind at 1. unfold nullish_coalesce, new_error_object, ret.
  destruct (is_nullish st); [rewrite Get_object, lookup_object_new|];
    simpl; destruct (capture_stack NormalizedErrorPrototype m); simpl;
    (unfold bind at 1; rewrite update_object_new; simpl);
    destruct (is_nullish ov); simpl;
    repeat (unfold bind at 1; rewrite ?update_object_new; simpl);
    reflexivity.
Qed.

Lemma wrap_spec (m : string) (v : value) (s : state) :
  wrap m v s
  = (Normal (VObject (S (length (heap s)))),
     with_heap
       (heap s ++
        [new_error_object ErrorPrototype (Some m);
         normalized_error_object m
           (VString (default m (capture_stack ErrorPrototype m)))
           (if is_nullish v then VObject (length (heap s)) else v)]) s).
Proof.
  unfold wrap, new_Error, Error_construct. simpl.
  unfold bind at 1. unfold bind at 1. simpl.
  rewrite (NormalizedError_construct_spec _ _ _ m
             (match capture_stack ErrorPrototype m with
              | Some t => VString t
              | None => VUndefined
              end)).
  - simpl. rewrite length_app, Nat.add_1_r, <- app_assoc. simpl.
    by destruct (capture_stack ErrorPrototype m).
  - unfold reads. rewrite Get_object, lookup_object_new. reflexivity.
  - unfold reads. rewrite Get_object, lookup_object_new.
    unfold new_error_object; simpl.
    by destruct (capture_stack ErrorPrototype m).
Qed.

Lemma thrown_text_extends (v : value) (s s' : state) (c : completion string) :
  thrown_text v s = (c, s') -> extends s s'.
Proof.
  unfold thrown_text, bind, typeof_is, gets.
  destruct (String.eqb (typeof s v) "object").
  - destruct v; simpl; unfold ret;
      try (intros [= _ <-]; apply extends_refl).
    + apply throw_TypeError_extends.
    + destruct (creating _ s) as [[j|e] s1] eqn:Hc; intros [= _ <-];
        by apply creating_extends in Hc.
    + destruct (creating _ s) as [[j|e] s1] eqn:Hc; intros [= _ <-];
        by apply creating_extends in Hc.
  - destruct v; simpl; unfold ret;
      try (intros [= _ <-]; apply extends_refl);
      first [ apply creating_extends | apply throw_TypeError_extends ].
Qed.

(** [toNormalizedError], case by case. *)
Lemma toNormalizedError_error_like (v : value) (s : state) :
  isError v s = (Normal true, s) ->
  exists m st,
    reads s v "message" (VString m) /\
    reads s v "stack" (VString st) /\
    toNormalizedError v s
    = (Normal (VObject (length (heap s))),
       with_heap (heap s ++ [normalized_error_object m (VString st) v]) s).
Proof.
  intros He. pose proof He as He'.
  rewrite isError_eval in He'. injection He' as H.
  apply guard_result_true in H
    as (_ & _ & (o1 & x & Ho1 & _ & Hx & [m ->]%typeof_string)
            & (o2 & y & Ho2 & _ & Hy & [st ->]%typeof_string)).
  assert (reads s v "message" (VString m)) as Hm.
  { unfold reads, Get, bind, gets. simpl. by rewrite Ho1, Hx. }
  assert (reads s v "stack" (VString st)) as Hst.
  { unfold reads, Get, bind, gets. simpl. rewrite Ho2. by rewrite Hy. }
  exists m, st. split; [done|]. split; [done|].
  unfold toNormalizedError, bind. rewrite He.
  by rewrite (NormalizedError_construct_spec _ _ _ m (VString st)).
Qed.

Lemma toNormalizedError_other (v : value) (s : state) :
  isError v s = (Normal false, s) ->
  toNormalizedError v s
  = match thrown_text v s with
    | (Normal t, s1) => wrap ("Unexpected value thrown: " +:+ t) v s1
    | (Throw _, s1) =>
        wrap "Unexpected value thrown: non-stringifiable object" v s1
    end.
Proof.
  intros He. unfold toNormalizedError, bind at 1. rewrite He.
  unfold try_catch, bind at 1.
  destruct (thrown_text v s) as [[t|e] s1]; [|reflexivity].
  fold (wrap ("Unexpected value thrown: " +:+ t) v).
  by rewrite wrap_spec.
Qed.

Lemma toNormalizedError_throws (v : value) (s s' : state) (e : value) :
  toNormalizedError v s = (Throw e, s') <-> isError v s = (Throw e, s').
Proof.
  pose proof (isError_eval v s) as He.
  destruct (guard_result "string" "message" "string" "stack" s v)
    as [[]|e0] eqn:Hg.
  - destruct (toNormalizedError_error_like _ _ He) as (m & st & _ & _ & ->).
    rewrite He. split; discriminate.
  - rewrite (toNormalizedError_other _ _ He), He.
    destruct (thrown_text v s) as [[t|e1] s1]; rewrite wrap_spec;
      split; discriminate.
  - unfold toNormalizedError, bind. rewrite He.
    split; intros [= -> ->]; reflexivity.
Qed.

(** The result of [toNormalizedError] is a new [NormalizedError]. *)
Lemma toNormalizedError_returns (v : value) (s s' : state) (n : value) :
  toNormalizedError v s = (Normal n, s') ->
  exists new m st ov,
    n = VObject (length (heap s ++ new)) /\
    s' = with_heap
           (heap s ++ new ++ [normalized_error_object m (VString st) ov]) s.
Proof.
  pose proof (isError_eval v s) as He.
  destruct (guard_result "string" "message" "string" "stack" s v)
    as [[]|e0] eqn:Hg.
  - destruct (toNormalizedError_error_like _ _ He) as (m & st & _ & _ & ->).
    intros [= <- <-]. exists [], m, st, v. by rewrite app_nil_r.
  - rewrite (toNormalizedError_other _ _ He).
    destruct (thrown_text v s) as [[t|e1] s1] eqn:Ht;
      apply thrown_text_extends in Ht as [new ->];
      rewrite wrap_spec; simpl; intros [= <- <-];
      eexists (new ++ [_])%list, _, _, _;
      (split; [|by rewrite <- !app_assoc]);
      f_equal; rewrite !length_app; simpl; lia.
  - unfold toNormalizedError, bind. by rewrite He.
Qed.

Lemma reads_string_extends (s s' : state) (v : value) (k t : string) :
  extends s s' -> reads s v k (VString t) -> reads s' v k (VString t).
Proof.
  unfold reads. intros Hx H.
  destruct (Get_string_in_store _ _ _ _ _ H) as (l & -> & Hl & _).
  rewrite Get_object in *. rewrite (extends_lookup s s') by done.
  by injection H as ->.
Qed.

Lemma reads_new (h : list object) (s : state) (o : object) (k : string)
    (x : value) :
  read_property (find_property o k) = Normal x ->
  reads (with_heap (h ++ [o]) s) (VObject (length h)) k x.
Proof.
  intros H. unfold reads. by rewrite Get_object, lookup_object_new, H.
Qed.

Lemma reads_last (h : list object) (s : state) (o1 o2 : object) (k : string)
    (x : value) :
  read_property (find_property o2 k) = Normal x ->
  reads (with_heap (h ++ [o1; o2]) s) (VObject (S (length h))) k x.
Proof.
  intros H.
  replace (h ++ [o1; o2])%list with ((h ++ [o1]) ++ [o2])%list
    by by rewrite <- app_assoc.
  replace (S (length h)) with (length (h ++ [o1])%list)
    by (rewrite length_app; simpl; lia).
  by apply reads_new.
Qed.

Lemma isNormalizedError_object (s : state) (l : loc) (m st : string)
    (ov : value) :
  lookup_object s l = normalized_error_object m (VString st) ov ->
  isNormalizedError (VObject l) s = (Normal true, s).
Proof.
  intros H. unfold isNormalizedError, and_then, bind.
  rewrite isError_eval. unfold guard_result, member_test.
  rewrite H. simpl. rewrite H. simpl.
  unfold stack_is_defined, bind. by rewrite Get_object, H.
Qed.


Lemma lookup_object_middle (h : list object) (s : state) (o1 o2 : object) :
  lookup_object (with_heap (h ++ [o1; o2]) s) (length h) = o1.
Proof. unfold lookup_object. simpl. by rewrite list_lookup_middle. Qed.

Lemma isError_primitive (v : value) (s : state) :
  object_of s v = None -> isError v s = (Normal false, s).
Proof. rewrite isError_eval. by destruct v. Qed.

(** What [toNormalizedError] returns for a value that is not error-like
    and has a text. *)
Lemma toNormalizedError_unexpected (v : value) (s s1 : state) (t : string) :
  isError v s = (Normal false, s) ->
  thrown_text v s = (Normal t, s1) ->
  exists s',
    toNormalizedError v s = (Normal (VObject (S (length (heap s1)))), s') /\
    reads s' (VObject (S (length (heap s1)))) "message"
      (VString ("Unexpected value thrown: " +:+ t)) /\
    reads s' (VObject (S (length (heap s1)))) "originalValue"
      (if is_nullish v then VObject (length (heap s1)) else v) /\
    reads s' (VObject (length (heap s1))) "message"
      (VString ("Unexpected value thrown: " +:+ t)) /\
    prototype (lookup_object s' (length (heap s1))) = Some ErrorPrototype.
Proof.
  intros He Ht. rewrite (toNormalizedError_other _ _ He), Ht, wrap_spec.
  eexists. split; [reflexivity|].
  repeat split; try (by apply reads_last).
  - unfold reads. by rewrite Get_object, lookup_object_middle.
  - by rewrite lookup_object_middle.
Qed.


Lemma reads_inj (s : state) (v : value) (k : string) (x y : value) :
  reads s v k x -> reads s v k y -> x = y.
Proof. unfold reads. intros -> [= ->]. reflexivity. Qed.

Lemma guard_primitive (t1 k1 t2 k2 : string) (s : state) (v : value) :
  object_of s v = None -> guard_result t1 k1 t2 k2 s v = Normal false.
Proof. by destruct v. Qed.

Lemma isNormalizedError_eval (v : value) (s : state) :
  isNormalizedError v s
  = (match guard_result "string" "message" "string" "stack" s v with
     | Normal true =>
         match object_of s v with
         | Some o => Normal (bool_decide (is_Some (find_property o "originalValue")))
         | None => Normal false
         end
     | c => c
     end, s).
Proof.
  unfold isNormalizedError, and_then, bind. rewrite isError_eval.
  destruct (guard_result "string" "message" "string" "stack" s v)
    as [[]|e] eqn:Hg; try reflexivity.
  destruct v; try discriminate. simpl in Hg.
  destruct (callable (lookup_object s l)); [discriminate|].
  destruct (member_test s (lookup_object s l) "message" "string")
    as [[]|] eqn:H1; try discriminate.
  apply member_test_true in Hg as (_ & x & Hx & [st ->]%typeof_string).
  rewrite HasProperty_object. simpl.
  destruct (bool_decide _); [|reflexivity].
  unfold stack_is_defined, bind. by rewrite Get_object, Hx.
Qed.


Lemma lookup_object_Some (s : state) (l : loc) (o : object) :
  heap s !! l = Some o -> lookup_object s l = o.
Proof. unfold lookup_object. by intros ->. Qed.










Lemma bind_eval {A B} (m : M A) (k : A -> M B) (s s' : state) (a : A) :
  m s = (Normal a, s') -> bind m k s = k a s'.
Proof. unfold bind. by intros ->. Qed.

Lemma bind_or_fallback {B} (x : value) (d : string) (k : value -> M B)
    (s : state) :
  bind (nullish_coalesce x (ret (VString d))) k s = k (or_fallback x d) s.
Proof. unfold nullish_coalesce, or_fallback. by destruct (is_nullish x). Qed.

Lemma logError_unfold (error context extraInfo : value) (s : state) :
  logError error context extraInfo s
  = logError_body error (context_or_default context)
      (extraInfo_or_default extraInfo s) (after_defaults extraInfo s).
Proof.
  unfold logError, default_parameter, context_or_default,
    extraInfo_or_default, after_defaults.
  by destruct (is_undefined context), (is_undefined extraInfo).
Qed.

Lemma clock_after_defaults (extraInfo : value) (s : state) :
  clock (after_defaults extraInfo s) = clock s.
Proof. unfold after_defaults. by destruct (is_undefined extraInfo). Qed.

Lemma console_after_defaults (extraInfo : value) (s : state) :
  console (after_defaults extraInfo s) = console s.
Proof. unfold after_defaults. by destruct (is_undefined extraInfo). Qed.

Lemma String__extends (v : value) (s s' : state) (c : completion string) :
  String_ v s = (c, s') -> extends s s'.
Proof.
  destruct v; simpl; unfold ret;
    try (intros [= _ <-]; apply extends_refl);
    first [ apply creating_extends | apply throw_TypeError_extends ].
Qed.

(** [logError] on an [Error] by type. *)
Lemma logError_instance (error context extraInfo : value) (s : state)
    (n m st : value) :
  let s0 := after_defaults extraInfo s in
  instanceof_Error error s0 = (Normal true, s0) ->
  reads s0 error "name" n ->
  reads s0 error "message" m ->
  reads s0 error "stack" st ->
  logError error context extraInfo s
  = (Normal tt,
     with_console (console s ++ [logged context extraInfo s n m st]) s0).
Proof.
  intros s0 Hi Hn Hm Hst. rewrite logError_unfold. fold s0.
  unfold logError_body.
  rewrite (bind_eval _ _ _ _ _ Hi). unfold bind at 1, ret at 1.
  unfold bind at 1, gets at 1.
  rewrite (bind_eval _ _ _ _ _ Hn), bind_or_fallback.
  rewrite (bind_eval _ _ _ _ _ Hm), bind_or_fallback.
  rewrite (bind_eval _ _ _ _ _ Hst), bind_or_fallback.
  unfold console_error, modify, logged, s0.
  by rewrite clock_after_defaults, console_after_defaults.
Qed.

(** [logError] on anything else that has a text. *)
Lemma logError_wrapped (error context extraInfo : value) (s s1 : state)
    (t : string) :
  let s0 := after_defaults extraInfo s in
  instanceof_Error error s0 = (Normal false, s0) ->
  String_ error s0 = (Normal t, s1) ->
  logError error context extraInfo s
  = (Normal tt,
     with_console
       (console s ++
        [logged context extraInfo s (VString "Error") (VString t)
           (match capture_stack ErrorPrototype t with
            | Some trace => VString trace
            | None => VUndefined
            end)])
       (with_heap (heap s1 ++ [new_error_object ErrorPrototype (Some t)]) s1)).
Proof.
  intros s0 Hi Ht. rewrite logError_unfold. fold s0.
  set (s2 := with_heap (heap s1 ++ [new_error_object ErrorPrototype (Some t)]) s1).
  assert ((let* x := String_ error in new_Error (VString x)) s0
          = (Normal (VObject (length (heap s1))), s2)) as He.
  { by rewrite (bind_eval _ _ _ _ _ Ht). }
  assert (reads s2 (VObject (length (heap s1))) "name" (VString "Error"))
    as Hn.
  { apply reads_new. unfold new_error_object, find_property. simpl.
    by destruct (capture_stack ErrorPrototype t). }
  assert (reads s2 (VObject (length (heap s1))) "message" (VString t))
    as Hm by by apply reads_new.
  assert (reads s2 (VObject (length (heap s1))) "stack"
            (match capture_stack ErrorPrototype t with
             | Some trace => VString trace
             | None => VUndefined
             end)) as Hst.
  { apply reads_new. unfold new_error_object, find_property. simpl.
    by destruct (capture_stack ErrorPrototype t). }
  unfold logError_body.
  rewrite (bind_eval _ _ _ _ _ Hi).
  rewrite (bind_eval _ _ _ _ _ He).
  unfold bind at 1, gets at 1.
  rewrite (bind_eval _ _ _ _ _ Hn), bind_or_fallback.
  rewrite (bind_eval _ _ _ _ _ Hm), bind_or_fallback.
  rewrite (bind_eval _ _ _ _ _ Hst), bind_or_fallback.
  unfold console_error, modify, logged.
  apply String__extends in Ht.
  assert (clock s2 = clock s) as ->.
  { destruct Ht as [new Hs1]. unfold s2. rewrite Hs1. simpl.
    apply clock_after_defaults. }
  assert (console s2 = console s) as ->.
  { destruct Ht as [new Hs1]. unfold s2. rewrite Hs1. simpl.
    apply console_after_defaults. }
  reflexivity.
Qed.

(** ** For the further properties *)

Lemma bind_throw {A B} (m : M A) (k : A -> M B) (s s' : state) (e : value) :
  m s = (Throw e, s') -> bind m k s = (Throw e, s').
Proof. unfold bind. by intros ->. Qed.

Lemma read_property_throws (p : option property) (e : value) :
  read_property p = Throw e -> p = Some (Accessor (Throw e)).
Proof. destruct p as [[x|g]|]; simpl; congruence. Qed.

Lemma member_test_throws (s : state) (o : object) (k t : string) (e : value) :
  member_test s o k t = Throw e ->
  find_property o k = Some (Accessor (Throw e)).
Proof.
  unfold member_test. case_bool_decide; [|discriminate].
  destruct (read_property (find_property o k)) eqn:Hr; [discriminate|].
  intros [= ->]. by apply read_property_throws.
Qed.

Lemma guard_result_throws (t1 k1 t2 k2 : string) (s : state) (v : value)
    (e : value) :
  guard_result t1 k1 t2 k2 s v = Throw e ->
  getter_throws s v k1 e \/ getter_throws s v k2 e.
Proof.
  destruct v as [| | | | | | |l|]; simpl; try discriminate.
  destruct (callable (lookup_object s l)); [discriminate|].
  destruct (member_test s (lookup_object s l) k1 t1) as [[]|e1] eqn:H1.
  - intros H2%member_test_throws. right. by exists l.
  - discriminate.
  - intros [= ->]. apply member_test_throws in H1. left. by exists l.
Qed.

Lemma isNormalizedError_throws (v : value) (s s' : state) (e : value) :
  isNormalizedError v s = (Throw e, s') ->
  guard_result "string" "message" "string" "stack" s v = Throw e.
Proof.
  rewrite isNormalizedError_eval.
  destruct (guard_result "string" "message" "string" "stack" s v) as [[]|e1];
    [destruct (object_of s v)|..]; congruence.
Qed.

(** ** What [toNormalizedError] returns *)



Lemma toNormalizedError_result (v : value) (s s' : state) (n : value) :
  toNormalizedError v s = (Normal n, s') ->
  exists l m st ov,
    n = VObject l /\
    S l = length (heap s') /\
    length (heap s) <= l /\
    extends s s' /\
    heap s' !! l = Some (normalized_error_object m (VString st) ov).
Proof.
  intros (new & m & st & ov & -> & ->)%toNormalizedError_returns.
  exists (length (heap s ++ new)), m, st, ov. simpl.
  split; [done|]. split; [rewrite !length_app; simpl; lia|].
  split; [rewrite length_app; lia|]. split; [by eexists|].
  rewrite app_assoc. by apply list_lookup_middle.
Qed.

Lemma toNormalizedError_when_isError_returns (v : value) (s : state) (b : bool) :
  isError v s = (Normal b, s) ->
  exists n s', toNormalizedError v s = (Normal n, s').
Proof.
  destruct b; intros Hb.
  - destruct (toNormalizedError_error_like _ _ Hb) as (m & st & _ & _ & ->).
    by eexists _, _.
  - rewrite (toNormalizedError_other _ _ Hb).
    destruct (thrown_text v s) as [[t|e] s1]; rewrite wrap_spec; by eexists _, _.
Qed.

Lemma noThrow_of_throw (action : M value) (s s1 : state) (e : value) :
  action s = (Throw e, s1) -> noThrow action s = toNormalizedError e s1.
Proof. intros Ha. unfold noThrow, try_catch. by rewrite (bind_throw _ _ _ _ _ Ha). Qed.



Lemma after_defaults_extends (extraInfo : value) (s : state) :
  extends s (after_defaults extraInfo s).
Proof.
  unfold after_defaults. destruct (is_undefined extraInfo);
    [by eexists|apply extends_refl].
Qed.

Lemma extends_length (s s' : state) :
  extends s s' -> length (heap s) <= length (heap s').
Proof. intros [new ->]. simpl. rewrite length_app. lia. Qed.

Lemma extends_trans (s1 s2 s3 : state) :
  extends s1 s2 -> extends s2 s3 -> extends s1 s3.
Proof.
  intros [n1 ->] [n2 ->]. exists (n1 ++ n2). simpl. by rewrite app_assoc.
Qed.

Lemma reads_extends (s s' : state) (v : value) (k : string) (x : value) :
  extends s s' -> in_store s v -> reads s v k x -> reads s' v k x.
Proof.
  intros Hx Hv. unfold reads. destruct v as [| | | | | | |l|].
  8: { simpl in Hv. rewrite !Get_object, (extends_lookup _ _ _ Hx Hv).
       by intros [= ->]. }
  all: unfold Get, bind, gets, throw_TypeError, bind, alloc, throw, ret;
    simpl; by intros [= <-].
Qed.

Lemma instanceof_Error_extends (s s' : state) (l : loc) (b : bool) :
  extends s s' -> l < length (heap s) ->
  instanceof_Error (VObject l) s = (Normal b, s) ->
  instanceof_Error (VObject l) s' = (Normal b, s').
Proof.
  intros Hx Hl. unfold instanceof_Error, gets.
  rewrite (extends_lookup _ _ _ Hx Hl). by intros [= ->].
Qed.

(** ** [HttpError] *)

Lemma HttpError_construct_spec (status : value) (m : string) (s : state) :
  HttpError_construct status (VString m) s
  = (Normal (VObject (length (heap s))),
     with_heap (heap s ++ [http_error_object m status]) s).
Proof.
  unfold HttpError_construct, Error_construct, assign, bind, alloc, ret.
  cbn [is_undefined ToString]. unfold ret. rewrite update_object_new.
  do 2 f_equal. unfold http_error_object, new_error_object.
  simpl. by destruct (capture_stack HttpErrorPrototype m).
Qed.

Lemma http_error_reads (h : list object) (s : state) (m : string)
    (status : value) :
  let s' := with_heap (h ++ [http_error_object m status]) s in
  let e := VObject (length h) in
  reads s' e "status" status /\
  reads s' e "message" (VString m) /\
  reads s' e "name" (VString "Error") /\
  reads s' e "stack" (match capture_stack HttpErrorPrototype m with
                      | Some t => VString t
                      | None => VUndefined
                      end) /\
  instanceof_Error e s' = (Normal true, s').
Proof.
  intros s' e.
  repeat split; try (apply reads_new; unfold http_error_object, find_property;
    simpl; by destruct (capture_stack HttpErrorPrototype m)).
  unfold instanceof_Error, gets, e, s'. by rewrite lookup_object_new.
Qed.

Lemma isError_http_error (h : list object) (s : state) (m : string)
    (status : value) :
  let s' := with_heap (h ++ [http_error_object m status]) s in
  isError (VObject (length h)) s'
  = (Normal (bool_decide (is_Some (capture_stack HttpErrorPrototype m))), s').
Proof.
  intros s'. rewrite isError_eval. f_equal. unfold s'.
  cbn [guard_result]. rewrite lookup_object_new.
  unfold http_error_object, member_test, find_property. simpl.
  by destruct (capture_stack HttpErrorPrototype m).
Qed.

(** ** [logError], every outcome *)

Lemma Get_object_outcome (l : loc) (k : string) (s : state) :
  (exists x, reads s (VObject l) k x) \/
  (exists e, Get (VObject l) k s = (Throw e, s) /\
             getter_throws s (VObject l) k e).
Proof.
  unfold reads. rewrite Get_object.
  destruct (read_property (find_property (lookup_object s l) k)) as [x|e] eqn:H.
  - left. by exists x.
  - right. exists e. split; [done|]. exists l. split; [done|].
    by apply read_property_throws.
Qed.

Lemma logError_instance_raises (error context extraInfo : value) (s : state)
    (e : value) :
  let s0 := after_defaults extraInfo s in
  instanceof_Error error s0 = (Normal true, s0) ->
  Get error "name" s0 = (Throw e, s0) \/
  (exists n, reads s0 error "name" n /\
     (Get error "message" s0 = (Throw e, s0) \/
      exists m, reads s0 error "message" m /\
                Get error "stack" s0 = (Throw e, s0))) ->
  logError error context extraInfo s = (Throw e, s0).
Proof.
  intros s0 Hi H. rewrite logError_unfold. fold s0.
  unfold logError_body.
  rewrite (bind_eval _ _ _ _ _ Hi). unfold bind at 1, ret at 1.
  unfold bind at 1, gets at 1.
  destruct H as [Hn | (n & Hn & [Hm | (m & Hm & Hst)])].
  - by rewrite (bind_throw _ _ _ _ _ Hn).
  - rewrite (bind_eval _ _ _ _ _ Hn), bind_or_fallback.
    by rewrite (bind_throw _ _ _ _ _ Hm).
  - rewrite (bind_eval _ _ _ _ _ Hn), bind_or_fallback.
    rewrite (bind_eval _ _ _ _ _ Hm), bind_or_fallback.
    by rewrite (bind_throw _ _ _ _ _ Hst).
Qed.

Lemma logError_text_raises (error context extraInfo : value) (s s1 : state)
    (e : value) :
  let s0 := after_defaults extraInfo s in
  instanceof_Error error s0 = (Normal false, s0) ->
  String_ error s0 = (Throw e, s1) ->
  logError error context extraInfo s = (Throw e, s1).
Proof.
  intros s0 Hi Ht. rewrite logError_unfold. fold s0.
  assert ((let* x := String_ error in new_Error (VString x)) s0
          = (Throw e, s1)) as He by by rewrite (bind_throw _ _ _ _ _ Ht).
  unfold logError_body.
  rewrite (bind_eval _ _ _ _ _ Hi).
  by rewrite (bind_throw _ _ _ _ _ He).
Qed.

Lemma instanceof_Error_eval (v : value) (s : state) :
  exists b, instanceof_Error v s = (Normal b, s) /\
            (b = true -> exists l, v = VObject l).
Proof.
  unfold instanceof_Error, gets. eexists. split; [done|].
  destruct v; try discriminate. by eexists.
Qed.

(** What [logError] leaves behind: new objects, and one record when it
    returns. *)
Lemma logError_outcome (error context extraInfo : value) (s s' : state)
    (c : completion unit) :
  let s0 := after_defaults extraInfo s in
  logError error context extraInfo s = (c, s') ->
  exists new,
    match c with
    | Normal _ =>
        exists n m st,
          s' = with_console (console s ++ [logged context extraInfo s n m st])
                 (with_heap (heap s0 ++ new) s0)
    | Throw e =>
        s' = with_heap (heap s0 ++ new) s0 /\
        ((instanceof_Error error s0 = (Normal true, s0) /\
          (getter_throws s0 error "name" e \/
           getter_throws s0 error "message" e \/
           getter_throws s0 error "stack" e)) \/
         (instanceof_Error error s0 = (Normal false, s0) /\
          String_ error s0 = (Throw e, s')))
    end.
Proof.
  intros s0.
  assert (s0 = with_heap (heap s0 ++ []) s0) as Hnil
    by by rewrite app_nil_r, with_heap_heap.
  destruct (instanceof_Error_eval error s0) as ([] & Hi & Hl).
  - destruct (Hl eq_refl) as [l ->].
    destruct (Get_object_outcome l "name" s0) as [[n Hn]|(e & Hn & Gn)];
      [destruct (Get_object_outcome l "message" s0) as [[m Hm]|(e & Hm & Gm)];
       [destruct (Get_object_outcome l "stack" s0) as [[st Hst]|(e & Hst & Gst)]
       |]|].
    + rewrite (logError_instance _ context extraInfo s _ _ _ Hi Hn Hm Hst).
      intros [= <- <-]. exists []. exists n, m, st. fold s0. by rewrite <- Hnil.
    + rewrite (logError_instance_raises _ context extraInfo s e Hi); fold s0.
      * intros [= <- <-]. exists []. split; [done|]. left. tauto.
      * right. exists n. split; [done|]. right. by exists m.
    + rewrite (logError_instance_raises _ context extraInfo s e Hi); fold s0.
      * intros [= <- <-]. exists []. split; [done|]. left. tauto.
      * right. exists n. split; [done|]. by left.
    + rewrite (logError_instance_raises _ context extraInfo s e Hi); fold s0.
      * intros [= <- <-]. exists []. split; [done|]. left. tauto.
      * by left.
  - destruct (String_ error s0) as [[t|e] s1] eqn:Ht.
    + rewrite (logError_wrapped _ context extraInfo s s1 t Hi Ht).
      intros [= <- <-]. apply String__extends in Ht as [new ->].
      exists (new ++ [new_error_object ErrorPrototype (Some t)]).
      eexists _, _, _. simpl. by rewrite <- app_assoc.
    + rewrite (logError_text_raises _ context extraInfo s s1 e Hi Ht).
      intros [= <- <-]. pose proof Ht as [new ->]%String__extends.
      exists new. split; [done|]. right. done.
Qed.

(** ** Primitives thrown *)

Lemma thrown_text_primitive (v : value) (s : state) (t : string) :
  primitive_text v = Some t -> thrown_text v s = (Normal t, s).
Proof. destruct v; try discriminate; intros [= <-]; reflexivity. Qed.

Lemma primitive_no_object (v : value) (s : state) (t : string) :
  primitive_text v = Some t -> object_of s v = None.
Proof. by destruct v. Qed.

(** The value a [NormalizedError] from [toNormalizedError] keeps. *)
Lemma toNormalizedError_originalValue (v : value) (s s' : state) (n : value) :
  toNormalizedError v s = (Normal n, s') ->
  is_nullish v = false ->
  reads s' n "originalValue" v.
Proof.
  intros H Hv.
  destruct (guard_result "string" "message" "string" "stack" s v)
    as [[]|e] eqn:Hg.
  - assert (isError v s = (Normal true, s)) as He
      by by rewrite isError_eval, Hg.
    destruct (toNormalizedError_error_like _ _ He) as (m & st & _ & _ & Hn).
    rewrite Hn in H. injection H as <- <-. by apply reads_new.
  - assert (isError v s = (Normal false, s)) as He
      by by rewrite isError_eval, Hg.
    rewrite (toNormalizedError_other _ _ He) in H.
    destruct (thrown_text v s) as [[t|e] s1]; rewrite wrap_spec, Hv in H;
      injection H as <- <-; by apply reads_last.
  - assert (isError v s = (Throw e, s)) as He by by rewrite isError_eval, Hg.
    apply toNormalizedError_throws in He. congruence.
Qed.

Lemma normalized_error_reads (s : state) (l : loc) (m : string)
    (st ov : value) :
  heap s !! l = Some (normalized_error_object m st ov) ->
  reads s (VObject l) "message" (VString m) /\
  reads s (VObject l) "stack" st /\
  reads s (VObject l) "originalValue" ov /\
  reads s (VObject l) "status" VUndefined.
Proof.
  intros Ho%lookup_object_Some. unfold reads.
  by rewrite !Get_object, Ho.
Qed.


(** ** The constructor on a value that is no [Error] *)

Lemma NormalizedError_construct_messageless (error ov : value) (s : state)
    (st : value) :
  in_store s error ->
  reads s error "message" VUndefined ->
  reads s error "stack" st ->
  NormalizedError_construct error ov s
  = (Normal (VObject (length (heap s))),
     with_heap
       (heap s ++
        [messageless_error_object
           (if is_nullish st then VString "" else st)
           (if is_nullish ov then error else ov)]) s).
Proof.
  intros Hin Hm Hst.
  assert (forall o, reads (with_heap (heap s ++ [o]) s) error "stack" st) as Hst'.
  { intros o. apply (reads_extends s); [by eexists|done|done]. }
  unfold NormalizedError_construct.
  rewrite (bind_eval _ _ _ _ _ Hm).
  unfold Error_construct. cbn [is_undefined]. unfold bind at 2. unfold ret at 1.
  unfold bind at 1, alloc at 1.
  unfold assign, setPrototypeOf.
  do 2 (unfold bind at 1; rewrite update_object_new).
  rewrite (bind_eval _ _ _ _ _ (Hst' _)).
  unfold bind at 1. unfold nullish_coalesce, new_error_object, ret.
  destruct (is_nullish st); [rewrite Get_object, lookup_object_new|];
    simpl; destruct (capture_stack NormalizedErrorPrototype ""); simpl;
    (unfold bind at 1; rewrite update_object_new; simpl);
    destruct (is_nullish ov); simpl;
    repeat (unfold bind at 1; rewrite ?update_object_new; simpl);
    reflexivity.
Qed.

(** ** Jobs *)








Lemma normalized_error_is_Error (s : state) (l : loc) (m : string)
    (st ov : value) :
  heap s !! l = Some (normalized_error_object m st ov) ->
  instanceof_Error (VObject l) s = (Normal true, s) /\
  reads s (VObject l) "name" (VString "Error").
Proof.
  intros Ho%lookup_object_Some. unfold reads, instanceof_Error, gets.
  by rewrite Get_object, Ho.
Qed.

End Lemmas.

(** * The claims *)

Section Claims.
Context {E : Engine}.

(** C1. The claim fails at [null] and [undefined]. Both are not
    error-like and have a text, and the message is as the claim says,
    but [originalValue] is not the input: the constructor's
    [originalValue ?? error] takes [null] and [undefined] for an
    omitted argument and stores the synthetic [Error] in their place.
    For every other input [toNormalizedError_unexpected] gives what the
    claim says. *)
Theorem toNormalizedError_null_undefined (s : state) :
  let synthetic := VObject (length (heap s)) in
  let result := VObject (S (length (heap s))) in
  (exists s',
     toNormalizedError VNull s = (Normal result, s') /\
     reads s' result "message" (VString "Unexpected value thrown: null") /\
     reads s' result "originalValue" synthetic /\
     reads s' synthetic "message" (VString "Unexpected value thrown: null") /\
     prototype (lookup_object s' (length (heap s))) = Some ErrorPrototype) /\
  (exists s',
     toNormalizedError VUndefined s = (Normal result, s') /\
     reads s' result "message" (VString "Unexpected value thrown: undefined") /\
     reads s' result "originalValue" synthetic /\
     reads s' synthetic "message"
       (VString "Unexpected value thrown: undefined") /\
     prototype (lookup_object s' (length (heap s))) = Some ErrorPrototype).
Proof.
  simpl. split.
  - apply (toNormalizedError_unexpected VNull s s "null");
      [by apply isError_primitive | reflexivity].
  - apply (toNormalizedError_unexpected VUndefined s s "undefined");
      [by apply isError_primitive | reflexivity].
Qed.


(** C3. An error-like input [e] (a non-null object whose [message] and
    [stack] are strings) is wrapped as it is: [toNormalizedError(e)]
    returns a new [NormalizedError] whose [originalValue] is [e], whose
    [message] is [e.message] and whose [stack] is [e.stack]. No synthetic
    message is built: the result is the only object created, and [e] is
    left as it was. *)
Theorem toNormalizedError_wraps_error_like (e : value) (s : state) :
  isError e s = (Normal true, s) ->
  exists (l : loc) (s' : state) (m st : string),
    toNormalizedError e s = (Normal (VObject l), s') /\
    reads s e "message" (VString m) /\
    reads s e "stack" (VString st) /\
    reads s' (VObject l) "originalValue" e /\
    reads s' (VObject l) "message" (VString m) /\
    reads s' (VObject l) "stack" (VString st) /\
    reads s' e "message" (VString m) /\
    reads s' e "stack" (VString st) /\
    prototype (lookup_object s' l) = Some NormalizedErrorPrototype /\
    length (heap s') = S (length (heap s)).
Proof.
  intros He.
  destruct (toNormalizedError_error_like _ _ He) as (m & st & Hm & Hst & Hr).
  eexists _, _, m, st. split; [exact Hr|].
  assert (extends s
            (with_heap (heap s ++ [normalized_error_object m (VString st) e]) s))
    as Hx by by eexists.
  repeat split; try done; try (by apply reads_new);
    try (by eapply reads_string_extends).
  - by rewrite lookup_object_new.
  - simpl. rewrite length_app. simpl. lia.
Qed.




(** C7. Each guard returns [true] exactly on the shape the spec words:
    [isError] iff the value is non-null, object-like, and has a
    [message] and a [stack] of string type; [isNormalizedError] iff it
    moreover has an [originalValue] and a [stack] that is not
    [undefined]; [isPromise] iff it is a non-null object with callable
    [then] and [catch]. On [null], [undefined], numbers and strings, and
    on every value that is no object, all three return [false]. *)
Theorem guards_accept_their_shapes (v : value) (s : state) :
  (isError v s = (Normal true, s) <-> error_like s v) /\
  (isNormalizedError v s = (Normal true, s) <-> normalized_error_like s v) /\
  (isPromise v s = (Normal true, s) <-> promise_like s v) /\
  (forall (n : float) (t : string) (p : value),
     p ∈ [VNull; VUndefined; VNumber n; VString t] \/ object_of s p = None ->
     isError p s = (Normal false, s) /\
     isNormalizedError p s = (Normal false, s) /\
     isPromise p s = (Normal false, s)).
Proof.
  split; [|split; [|split]].
  - rewrite isError_eval. unfold error_like.
    rewrite <- guard_result_true. split; [by intros [= ->] | by intros ->].
  - rewrite isNormalizedError_eval. unfold normalized_error_like, error_like.
    rewrite <- guard_result_true. split.
    + destruct (guard_result "string" "message" "string" "stack" s v)
        as [[]|] eqn:Hg; try discriminate.
      pose proof Hg as (_ & _ & _ & (o & x & Ho & _ & Hx & [st ->]%typeof_string))
        %guard_result_true.
      rewrite Ho. intros [= Hov]. apply bool_decide_eq_true in Hov.
      split; [done|]. split; [eauto|].
      exists (VString st). split; [|done].
      unfold reads, Get, bind, gets. simpl. rewrite Ho. by rewrite Hx.
    + intros (-> & (o & -> & Hov) & _). by rewrite bool_decide_eq_true_2.
  - rewrite isPromise_eval. unfold promise_like.
    rewrite <- guard_result_true. split; [by intros [= ->] | by intros ->].
  - intros n t p Hp.
    assert (object_of s p = None) as Ho.
    { destruct Hp as [Hp|]; [|done].
      repeat (apply elem_of_cons in Hp as [-> | Hp]; [done|]).
      by apply elem_of_nil in Hp. }
    rewrite isNormalizedError_eval, isError_eval, isPromise_eval.
    by rewrite !guard_primitive.
Qed.



(** C10, amended. On the wrapping path the [name] and [message]
    fallbacks are never taken: the record holds ["Error"] and the text
    of the input; only the [stack] fallback can be, when the engine
    records no trace. For an [Error] by type each of the three is taken
    exactly when the field reads [null] or [undefined], which an
    instance with [name] or [message] overwritten does. *)
Theorem logError_fallbacks (error context extraInfo : value) (s : state) :
  let s0 := after_defaults extraInfo s in
  (forall t s1,
     instanceof_Error error s0 = (Normal false, s0) ->
     String_ error s0 = (Normal t, s1) ->
     exists s' r,
       logError error context extraInfo s = (Normal tt, s') /\
       console s' = console s ++ [r] /\
       rec_name (rec_error r) = VString "Error" /\
       rec_message (rec_error r) = VString t /\
       rec_stack (rec_error r)
       = VString (default "No stack trace available"
                    (capture_stack ErrorPrototype t))) /\
  (forall n m st,
     instanceof_Error error s0 = (Normal true, s0) ->
     reads s0 error "name" n ->
     reads s0 error "message" m ->
     reads s0 error "stack" st ->
     exists s' r,
       logError error context extraInfo s = (Normal tt, s') /\
       console s' = console s ++ [r] /\
       rec_name (rec_error r)
       = (if is_nullish n then VString "No name available" else n) /\
       rec_message (rec_error r)
       = (if is_nullish m then VString "No message available" else m) /\
       rec_stack (rec_error r)
       = (if is_nullish st then VString "No stack trace available" else st)).
Proof.
  intros s0. split.
  - intros t s1 Hi Ht. eexists _, _.
    split; [by apply logError_wrapped|].
    split; [done|]. split; [done|]. split; [done|].
    simpl. by destruct (capture_stack ErrorPrototype t).
  - intros n m st Hi Hn Hm Hst. eexists _, _.
    split; [by apply logError_instance|done].
Qed.

End Claims.

(** * Further properties of the module *)

Section Further.
Context {E : Engine}.

(** X1. The three guards only read. Getters being functions that return
    or throw and write nothing, as the store holds them, each guard
    leaves the state as it was, whatever it is given. A guard raises
    only what a getter of the value throws: [isError] and
    [isNormalizedError] the [message] or [stack] getter's exception
    ([originalValue] is tested with [in] and never read), [isPromise]
    the [then] or [catch] getter's. *)
Theorem guards_only_read (v : value) (s : state) :
  (exists c, isError v s = (c, s)) /\
  (exists c, isNormalizedError v s = (c, s)) /\
  (exists c, isPromise v s = (c, s)) /\
  (forall e s', isError v s = (Throw e, s') ->
     getter_throws s v "message" e \/ getter_throws s v "stack" e) /\
  (forall e s', isNormalizedError v s = (Throw e, s') ->
     getter_throws s v "message" e \/ getter_throws s v "stack" e) /\
  (forall e s', isPromise v s = (Throw e, s') ->
     getter_throws s v "then" e \/ getter_throws s v "catch" e).
Proof.
  split; [rewrite isError_eval; by eexists|].
  split; [rewrite isNormalizedError_eval; by eexists|].
  split; [rewrite isPromise_eval; by eexists|].
  split; [|split].
  - intros e s'. rewrite isError_eval. intros [= H _].
    by apply guard_result_throws in H.
  - intros e s' H%isNormalizedError_throws.
    by apply guard_result_throws in H.
  - intros e s'. rewrite isPromise_eval. intros [= H _].
    by apply guard_result_throws in H.
Qed.

(** X2. The constructor on a value that is no [Error]. For [null] and
    [undefined] it raises a [TypeError]. For a value in the store whose
    [message] reads [undefined], the new object has no [message] of its
    own and reads the empty string inherited from [Error.prototype]; its
    [stack] is the value's [stack], or the empty string when that is
    [null] or [undefined]. *)
Theorem NormalizedError_construct_ill_shaped (error ov : value) (s : state) :
  (is_nullish error = true ->
   exists l s',
     NormalizedError_construct error ov s = (Throw (VObject l), s') /\
     heap s !! l = None /\
     prototype (lookup_object s' l) = Some TypeErrorPrototype) /\
  (forall st,
     in_store s error ->
     reads s error "message" VUndefined ->
     reads s error "stack" st ->
     exists l s',
       NormalizedError_construct error ov s = (Normal (VObject l), s') /\
       own_property (properties (lookup_object s' l)) "message" = None /\
       reads s' (VObject l) "message" (VString "") /\
       reads s' (VObject l) "stack" (if is_nullish st then VString "" else st) /\
       reads s' (VObject l) "originalValue"
         (if is_nullish ov then error else ov)).
Proof.
  split.
  - intros Hn. exists (length (heap s)). eexists. split.
    + destruct error; try discriminate; reflexivity.
    + split; [by apply lookup_ge_None_2|].
      destruct error; try discriminate; simpl; by rewrite lookup_object_new.
  - intros st Hin Hm Hst. eexists _, _.
    split; [by apply NormalizedError_construct_messageless|].
    split; [by rewrite lookup_object_new|].
    repeat split; by apply reads_new.
Qed.



(** X5. A primitive thrown is described by [String]: the message of
    [toNormalizedError(v)] is ["Unexpected value thrown: "] followed by
    the text of [v], a string unquoted, [null] as ["null"]. Two objects
    are created, and [originalValue] is [v] itself unless [v] is [null]
    or [undefined]: the falsy [false], [0], [NaN], [0n] and the empty
    string are kept. *)
Theorem toNormalizedError_primitive (v : value) (s : state) (t : string) :
  primitive_text v = Some t ->
  let n := VObject (S (length (heap s))) in
  exists s',
    toNormalizedError v s = (Normal n, s') /\
    length (heap s') = S (S (length (heap s))) /\
    reads s' n "message" (VString ("Unexpected value thrown: " +:+ t)) /\
    (is_nullish v = false -> reads s' n "originalValue" v).
Proof.
  intros Ht n.
  pose proof (isError_primitive v s (primitive_no_object _ s _ Ht)) as He.
  destruct (toNormalizedError_unexpected _ _ _ _ He (thrown_text_primitive _ s _ Ht))
    as (s' & Hn & Hm & Hov & _).
  exists s'. split; [done|]. split.
  - rewrite (toNormalizedError_other _ _ He), (thrown_text_primitive _ s _ Ht),
      wrap_spec in Hn.
    injection Hn as <-. simpl. rewrite length_app. simpl. lia.
  - split; [done|]. intros Hv. by rewrite Hv in Hov.
Qed.




(** X9. The test [isPromise(result)] runs inside the [try] block: when
    the call returns a value whose [then] or [catch] getter throws,
    [noThrow] does not raise; it normalizes what the getter threw, and
    the value returned by the call is not part of the result. *)
Theorem noThrow_result_getter_throws (action : M value) (s s1 : state)
    (r e : value) :
  action s = (Normal r, s1) ->
  getter_throws s1 r "then" e \/
  (has_field_of_type s1 r "then" "function" /\ getter_throws s1 r "catch" e) ->
  typeof s1 r = "object" ->
  isPromise r s1 = (Throw e, s1) /\
  noThrow action s = toNormalizedError e s1.
Proof.
  intros Ha Hg Ht.
  assert (isPromise r s1 = (Throw e, s1)) as Hp.
  { rewrite isPromise_eval. f_equal.
    destruct Hg as [(l & -> & Hf) | ((o & x & Ho & Hs & Hr & Hx) & (l & -> & Hf))].
    - simpl in *. destruct (callable (lookup_object s1 l)); [discriminate|].
      unfold member_test. by rewrite Hf, bool_decide_true.
    - simpl in *. injection Ho as <-.
      destruct (callable (lookup_object s1 l)); [discriminate|].
      unfold member_test at 1. rewrite bool_decide_true, Hr, Hx by done.
      simpl. unfold member_test. by rewrite Hf, bool_decide_true. }
  split; [done|].
  unfold noThrow, try_catch.
  by rewrite (bind_eval _ _ _ _ _ Ha), (bind_throw _ _ _ _ _ Hp).
Qed.



(** X12. Every call that omits [extraInfo] logs an empty object of its
    own: the object of the first call was not in the store before the
    call, and a second call gets a different one. *)
Theorem logError_default_extraInfo_is_fresh (e1 c1 e2 c2 : value)
    (s s1 s2 : state) :
  logError e1 c1 VUndefined s = (Normal tt, s1) ->
  logError e2 c2 VUndefined s1 = (Normal tt, s2) ->
  let l1 := length (heap s) in
  let l2 := length (heap s1) in
  exists r1 r2,
    console s2 = console s ++ [r1; r2] /\
    rec_extraInfo r1 = VObject l1 /\
    rec_extraInfo r2 = VObject l2 /\
    l1 < l2 /\
    heap s !! l1 = None /\
    heap s1 !! l2 = None /\
    heap s2 !! l1 = Some empty_object /\
    heap s2 !! l2 = Some empty_object.
Proof.
  intros (new1 & n1 & m1 & st1 & ->)%logError_outcome
         (new2 & n2 & m2 & st2 & ->)%logError_outcome.
  simpl. eexists _, _.
  split; [by rewrite <- app_assoc|]. split; [done|]. split; [done|].
  split; [rewrite !length_app; simpl; lia|].
  split; [by apply lookup_ge_None_2|].
  split; [by apply lookup_ge_None_2|].
  split.
  - rewrite <- !app_assoc. by apply list_lookup_middle.
  - rewrite <- (app_assoc _ [empty_object] new2).
    by apply list_lookup_middle.
Qed.

(** X13. Logging what [toNormalizedError] returned, as the README does
    with the result of [noThrow]: the record's name is ["Error"], for
    [NormalizedError] sets none, and its message and stack are those of
    the [NormalizedError], the stack even when it is the empty string.
    No fallback string is written. *)
Theorem logError_of_NormalizedError (v context extraInfo : value)
    (s s1 : state) (n : value) :
  toNormalizedError v s = (Normal n, s1) ->
  exists (m st : string) (s2 : state) (r : log_record),
    reads s1 n "message" (VString m) /\
    reads s1 n "stack" (VString st) /\
    logError n context extraInfo s1 = (Normal tt, s2) /\
    console s2 = console s ++ [r] /\
    rec_name (rec_error r) = VString "Error" /\
    rec_message (rec_error r) = VString m /\
    rec_stack (rec_error r) = VString st.
Proof.
  intros H.
  destruct (toNormalizedError_result _ _ _ _ H)
    as (l & m & st & ov & -> & Hl & _ & [new Hx] & Ho).
  destruct (normalized_error_reads _ _ _ _ _ Ho) as (Hm & Hst & _).
  destruct (normalized_error_is_Error _ _ _ _ _ Ho) as (Hi & Hn).
  assert (in_store s1 (VObject l)) as Hin by (simpl; lia).
  pose proof (after_defaults_extends extraInfo s1) as Hx1.
  exists m, st. eexists _, _.
  split; [done|]. split; [done|]. split.
  { apply logError_instance.
    - apply (instanceof_Error_extends s1); [done|simpl in Hin; lia|done].
    - by apply (reads_extends s1).
    - by apply (reads_extends s1).
    - by apply (reads_extends s1). }
  split; [simpl; by rewrite Hx|done].
Qed.

(** X14. [new HttpError(status, m)] creates one object and changes none.
    The new object holds [status] as it was passed, whatever it is, and
    the message; its [name] is ["Error"], for the class sets none; it is
    an [Error] by type. [isError] accepts it exactly when the engine
    gave it a [stack]; [isNormalizedError] and [isPromise] reject it. *)
Theorem HttpError_construct_fields (status : value) (m : string) (s : state) :
  let e := VObject (length (heap s)) in
  exists s',
    HttpError_construct status (VString m) s = (Normal e, s') /\
    extends s s' /\
    length (heap s') = S (length (heap s)) /\
    reads s' e "status" status /\
    reads s' e "message" (VString m) /\
    reads s' e "name" (VString "Error") /\
    instanceof_Error e s' = (Normal true, s') /\
    isError e s'
    = (Normal (bool_decide (is_Some (capture_stack HttpErrorPrototype m))), s') /\
    isNormalizedError e s' = (Normal false, s') /\
    isPromise e s' = (Normal false, s').
Proof.
  intros e. eexists. split; [apply HttpError_construct_spec|].
  destruct (http_error_reads (heap s) s m status) as (H1 & H2 & H3 & _ & H5).
  split; [by eexists|]. split; [simpl; rewrite length_app; simpl; lia|].
  do 4 (split; [done|]).
  split; [apply isError_http_error|].
  split.
  - rewrite isNormalizedError_eval. unfold e.
    cbn [guard_result object_of]. rewrite lookup_object_new.
    unfold http_error_object, member_test, find_property. simpl.
    by destruct (capture_stack HttpErrorPrototype m).
  - rewrite isPromise_eval. unfold e. cbn [guard_result].
    rewrite lookup_object_new.
    unfold http_error_object, member_test, find_property. simpl.
    by destruct (capture_stack HttpErrorPrototype m).
Qed.

(** X15. [noThrow(() => { throw new HttpError(status, m) })] returns a
    [NormalizedError] whose [originalValue] is the [HttpError] thrown,
    with its [status]; the [NormalizedError] itself has no [status].
    When the engine gave the [HttpError] a [stack], the result has the
    [HttpError]'s [message] and [stack]. *)
Theorem noThrow_HttpError (status : value) (m : string) (s : state) :
  let h := VObject (length (heap s)) in
  exists n s',
    noThrow (throw_HttpError status m) s = (Normal n, s') /\
    isNormalizedError n s' = (Normal true, s') /\
    reads s' n "originalValue" h /\
    reads s' h "status" status /\
    reads s' n "status" VUndefined /\
    (forall trace,
       capture_stack HttpErrorPrototype m = Some trace ->
       reads s' n "message" (VString m) /\
       reads s' n "stack" (VString trace)).
Proof.
  intros h.
  set (s1 := with_heap (heap s ++ [http_error_object m status]) s).
  assert (throw_HttpError status m s = (Throw h, s1)) as Ha.
  { unfold throw_HttpError.
    by rewrite (bind_eval _ _ _ _ _ (HttpError_construct_spec status m s)). }
  destruct (http_error_reads (heap s) s m status) as (H1 & H2 & _ & H4 & _).
  fold s1 h in H1, H2, H4.
  pose proof (isError_http_error (heap s) s m status) as Hb.
  fold s1 h in Hb. cbv zeta in Hb. fold s1 in Hb.
  destruct (toNormalizedError_when_isError_returns _ _ _ Hb) as (n & s' & Hn).
  exists n, s'. rewrite (noThrow_of_throw _ _ _ _ Ha). split; [done|].
  pose proof (toNormalizedError_originalValue _ _ _ _ Hn eq_refl) as Hov.
  destruct (toNormalizedError_result _ _ _ _ Hn)
    as (l & m' & st' & ov & -> & _ & _ & Hx & Ho).
  destruct (normalized_error_reads _ _ _ _ _ Ho) as (Hm & Hst & _ & Hs).
  split; [by eapply isNormalizedError_object, lookup_object_Some|].
  split; [done|].
  assert (in_store s1 h) as Hin.
  { unfold h, s1. simpl. rewrite length_app. simpl. lia. }
  split; [by apply (reads_extends s1)|]. split; [done|].
  intros trace Ht. rewrite Ht in H4.
  assert (isError h s1 = (Normal true, s1)) as He by by rewrite Hb, Ht.
  destruct (toNormalizedError_error_like _ _ He) as (m2 & st2 & Hm2 & Hst2 & Hn2).
  pose proof (reads_inj _ _ _ _ _ Hm2 H2) as [= ->].
  pose proof (reads_inj _ _ _ _ _ Hst2 H4) as [= ->].
  rewrite Hn2 in Hn. injection Hn as Hl Hs'. subst l s'.
  split; by apply reads_new.
Qed.

(** X16. [logError(new HttpError(status, m))] writes one record whose
    name is ["Error"], not ["HttpError"], whose message is [m] and whose
    stack is the trace the engine captured, or the fallback string when
    it captured none. *)
Theorem logError_HttpError (status context extraInfo : value) (m : string)
    (s : state) :
  exists h s1 s2 r,
    HttpError_construct status (VString m) s = (Normal h, s1) /\
    logError h context extraInfo s1 = (Normal tt, s2) /\
    console s2 = console s ++ [r] /\
    rec_name (rec_error r) = VString "Error" /\
    rec_message (rec_error r) = VString m /\
    rec_stack (rec_error r)
    = VString (default "No stack trace available"
                 (capture_stack HttpErrorPrototype m)) /\
    rec_context r = context_or_default context.
Proof.
  set (s1 := with_heap (heap s ++ [http_error_object m status]) s).
  set (h := VObject (length (heap s))).
  destruct (http_error_reads (heap s) s m status) as (_ & H2 & H3 & H4 & H5).
  fold s1 h in H2, H3, H4, H5.
  assert (in_store s1 h) as Hin.
  { unfold h, s1. simpl. rewrite length_app. simpl. lia. }
  pose proof (after_defaults_extends extraInfo s1) as Hx.
  eexists h, s1, _, _. split; [apply HttpError_construct_spec|].
  split.
  { apply logError_instance.
    - by apply (instanceof_Error_extends s1).
    - by apply (reads_extends s1).
    - by apply (reads_extends s1).
    - by apply (reads_extends s1). }
  split; [done|]. split; [done|]. split; [done|]. split; [|done].
  simpl. by destruct (capture_stack HttpErrorPrototype m).
Qed.

End Further.

(** * The claims on the sample values *)

Section Samples.
Import Sample.

(** ** Type guards *)

(** A plain object with [message] and [stack] strings is error-like;
    one missing [stack] is not; a thenable is promise-like; a cyclic
    object makes no guard raise. *)
Example guards_on_samples :
  isError (VObject 0) store = (Normal true, store) /\
  isError (VObject 1) store = (Normal false, store) /\
  isNormalizedError (VObject 0) store = (Normal false, store) /\
  isPromise (VObject 5) store = (Normal true, store) /\
  isPromise (VObject 7) store = (Normal true, store) /\
  isPromise (VObject 4) store = (Normal false, store) /\
  isError (VObject 2) store = (Normal false, store).
Proof. repeat split. Qed.

(** ** [toNormalizedError] *)

Lemma toNormalizedError_wraps_error_like_witness :
  isError (VObject 10) store = (Normal true, store) /\
  exists l s' m st,
    toNormalizedError (VObject 10) store = (Normal (VObject l), s') /\
    reads store (VObject 10) "message" (VString m) /\
    reads store (VObject 10) "stack" (VString st) /\
    reads s' (VObject l) "originalValue" (VObject 10) /\
    reads s' (VObject l) "message" (VString m) /\
    reads s' (VObject l) "stack" (VString st) /\
    reads s' (VObject 10) "message" (VString m) /\
    reads s' (VObject 10) "stack" (VString st) /\
    prototype (lookup_object s' l) = Some NormalizedErrorPrototype /\
    length (heap s') = S (length (heap store)).
Proof.
  split; [reflexivity|].
  apply (toNormalizedError_wraps_error_like (VObject 10) store).
  reflexivity.
Defined.

(** [toNormalizedError(null)] and [toNormalizedError(42)] on the sample
    store: the first keeps the synthetic [Error] at location 12, the
    second the number. *)
Example toNormalizedError_null_and_number :
  (exists s',
     toNormalizedError VNull store = (Normal (VObject 13), s') /\
     reads s' (VObject 13) "originalValue" (VObject 12) /\
     reads s' (VObject 13) "message" (VString "Unexpected value thrown: null")) /\
  (exists s',
     toNormalizedError (VNumber 42) store = (Normal (VObject 13), s') /\
     reads s' (VObject 13) "originalValue" (VNumber 42) /\
     reads s' (VObject 13) "message" (VString "Unexpected value thrown: 42")).
Proof. split; eexists; repeat split. Qed.





(** ** [noThrow] *)



(** The two asynchronous examples, the queued job run: the promise
    [noThrow] returned is fulfilled, with a [NormalizedError] whose
    [originalValue] is ["boom"], and with 7. *)
Example noThrow_async_examples :
  (exists s2 s3,
     noThrow (ret (VObject 7)) store = (Normal (VObject 12), s2) /\
     run_jobs 1 s2 = (Normal tt, s3) /\
     settled_with s3 12 (Fulfilled (VObject 14)) /\
     isNormalizedError (VObject 14) s3 = (Normal true, s3) /\
     reads s3 (VObject 14) "originalValue" (VString "boom") /\
     jobs s3 = []) /\
  (exists s2 s3,
     noThrow (ret (VObject 8)) store = (Normal (VObject 12), s2) /\
     run_jobs 1 s2 = (Normal tt, s3) /\
     settled_with s3 12 (Fulfilled (VNumber 7)) /\
     jobs s3 = []).
Proof. split; eexists _, _; repeat split. Qed.

(** [noThrow] on a promise that is still pending, at location 9: the
    reaction waits in the promise; once the promise is rejected with
    ["late"] and the job has run, the promise [noThrow] returned is
    fulfilled with a [NormalizedError] whose [originalValue] is
    ["late"]. *)
Example noThrow_pending_example :
  exists s2 s3 s4,
    noThrow (ret (VObject 9)) store = (Normal (VObject 12), s2) /\
    pending_promise s2 9 [noThrow_reaction 12] /\
    jobs s2 = [] /\
    settle_promise 9 (Rejected (VString "late")) s2 = (Normal tt, s3) /\
    jobs s3 = [(noThrow_reaction 12, Rejected (VString "late"))] /\
    run_jobs 1 s3 = (Normal tt, s4) /\
    settled_with s4 12 (Fulfilled (VObject 14)) /\
    reads s4 (VObject 14) "originalValue" (VString "late") /\
    jobs s4 = [].
Proof. eexists _, _, _. repeat split. eexists. split; reflexivity. Qed.


(** ** [logError] *)


(** [logError("plain string")]: wrapped, nothing falls back. *)
Lemma logError_fallbacks_witness :
  exists s' r,
    logError (VString "plain string") VUndefined VUndefined store
    = (Normal tt, s') /\
    console s' = console store ++ [r] /\
    rec_name (rec_error r) = VString "Error" /\
    rec_message (rec_error r) = VString "plain string" /\
    rec_stack (rec_error r)
    = VString (default "No stack trace available"
                 (capture_stack ErrorPrototype "plain string")).
Proof.
  eapply (proj1 (logError_fallbacks (VString "plain string") VUndefined
                   VUndefined store)); reflexivity.
Defined.

(** An [Error] whose [name] was set to [null] and whose [message] was
    set to [undefined]: both fallbacks are written. *)
Lemma logError_name_message_fallback_taken :
  instanceof_Error (VObject 6) store = (Normal true, store) /\
  exists s' r,
    logError (VObject 6) (VString "ctx") (VObject 11) store = (Normal tt, s') /\
    console s' = [r] /\
    rec_name (rec_error r) = VString "No name available" /\
    rec_message (rec_error r) = VString "No message available".
Proof. split; [reflexivity|]. eexists _, _. repeat split. Qed.

(** [new HttpError(404, "missing").status === 404] *)
Example HttpError_status :
  exists l s',
    HttpError_construct (VNumber 404) (VString "missing") store
    = (Normal (VObject l), s') /\
    reads s' (VObject l) "status" (VNumber 404) /\
    reads s' (VObject l) "message" (VString "missing").
Proof. eexists _, _. repeat split. Qed.

End Samples.

(** * The further properties on the sample values *)

Section FurtherSamples.
Import Sample.

(** [isError] on the object whose [message] getter throws. *)
Lemma guards_only_read_witness :
  isError (VObject 3) store = (Throw (VString "gotcha"), store) /\
  (getter_throws store (VObject 3) "message" (VString "gotcha") \/
   getter_throws store (VObject 3) "stack" (VString "gotcha")).
Proof.
  split; [reflexivity|].
  apply (proj1 (proj2 (proj2 (proj2 (guards_only_read (VObject 3) store))))
           (VString "gotcha") store).
  reflexivity.
Defined.




(** [noThrow(() => { throw new HttpError(404, "missing") })] on the
    sample engine, which gives every error object a [stack]. *)
Lemma noThrow_HttpError_witness :
  exists n s',
    noThrow (throw_HttpError (VNumber 404) "missing") store = (Normal n, s') /\
    reads s' n "originalValue" (VObject 12) /\
    reads s' (VObject 12) "status" (VNumber 404) /\
    reads s' n "message" (VString "missing").
Proof.
  pose proof (noThrow_HttpError (VNumber 404) "missing" store) as H.
  cbv zeta in H. destruct H as (n & s' & H1 & _ & H3 & H4 & _ & H6).
  exists n, s'. split; [exact H1|]. split; [exact H3|]. split; [exact H4|].
  exact (proj1 (H6 _ eq_refl)).
Defined.


(** Two calls [logError("a")] and [logError("b")]. *)
Lemma logError_default_extraInfo_is_fresh_witness :
  exists s1 s2 r1 r2,
    logError (VString "a") VUndefined VUndefined store = (Normal tt, s1) /\
    logError (VString "b") VUndefined VUndefined s1 = (Normal tt, s2) /\
    console s2 = [r1; r2] /\
    rec_extraInfo r1 = VObject 12 /\
    rec_extraInfo r2 = VObject 14 /\
    heap s2 !! 12 = Some empty_object /\
    heap s2 !! 14 = Some empty_object.
Proof.
  edestruct (logError_default_extraInfo_is_fresh
               (VString "a") VUndefined (VString "b") VUndefined store)
    as (r1 & r2 & H1 & H2 & H3 & _ & _ & _ & H7 & H8);
    [reflexivity | reflexivity |].
  eexists _, _, r1, r2. split; [reflexivity|]. split; [reflexivity|].
  split; [exact H1|]. split; [exact H2|]. split; [exact H3|].
  split; [exact H7|exact H8].
Defined.

(** [toNormalizedError(false)] *)
Lemma toNormalizedError_primitive_witness :
  exists s',
    toNormalizedError (VBool false) store = (Normal (VObject 13), s') /\
    length (heap s') = 14 /\
    reads s' (VObject 13) "message"
      (VString "Unexpected value thrown: false") /\
    reads s' (VObject 13) "originalValue" (VBool false).
Proof.
  destruct (toNormalizedError_primitive (VBool false) store "false" eq_refl)
    as (s' & H1 & H2 & H3 & H4).
  exists s'. split; [exact H1|]. split; [exact H2|]. split; [exact H3|].
  exact (H4 eq_refl).
Defined.

(** [new NormalizedError({ a: 1 })], the argument typed as an [Error]. *)
Lemma NormalizedError_construct_ill_shaped_witness :
  exists l s',
    NormalizedError_construct (VObject 11) VUndefined store
    = (Normal (VObject l), s') /\
    reads s' (VObject l) "message" (VString "") /\
    reads s' (VObject l) "stack" (VString "") /\
    reads s' (VObject l) "originalValue" (VObject 11).
Proof.
  destruct (proj2 (NormalizedError_construct_ill_shaped (VObject 11) VUndefined
                     store) VUndefined)
    as (l & s' & H1 & _ & H3 & H4 & H5);
    [simpl; lia | reflexivity | reflexivity |].
  exists l, s'. split; [exact H1|]. split; [exact H3|]. split; [exact H4|].
  exact H5.
Defined.



(** [noThrow(() => ({ get then() { throw "gotcha" } }))] *)
Lemma noThrow_result_getter_throws_witness :
  isPromise (VObject 12) (store_with then_trap)
  = (Throw (VString "gotcha"), store_with then_trap) /\
  noThrow (ret (VObject 12)) (store_with then_trap)
  = toNormalizedError (VString "gotcha") (store_with then_trap).
Proof.
  apply (noThrow_result_getter_throws (ret (VObject 12)) (store_with then_trap)
           (store_with then_trap) (VObject 12) (VString "gotcha"));
    [reflexivity | left; exists 12; split; reflexivity | reflexivity].
Defined.

(** [logError(toNormalizedError("boom"))] *)
Lemma logError_of_NormalizedError_witness :
  exists s1 s2 r,
    toNormalizedError (VString "boom") store = (Normal (VObject 13), s1) /\
    logError (VObject 13) VUndefined VUndefined s1 = (Normal tt, s2) /\
    console s2 = [r] /\
    rec_name (rec_error r) = VString "Error" /\
    rec_message (rec_error r) = VString "Unexpected value thrown: boom".
Proof.
  edestruct (logError_of_NormalizedError (VString "boom") VUndefined VUndefined
               store)
    as (m & st & s2 & r & Hm & _ & H1 & H2 & H3 & H4 & _); [reflexivity|].
  eexists _, s2, r. split; [reflexivity|]. split; [exact H1|].
  split; [exact H2|]. split; [exact H3|].
  rewrite H4. apply (reads_inj _ _ _ _ _ Hm). reflexivity.
Defined.

End FurtherSamples.
